(** * MediChain client: the connectivity layer of [client/src/App.js]

    A shallow embedding of the start-up negotiation in [App.js]: the
    simulated content store [mockIpfs], the simulated contract built by
    [createMockContract], the two resolvers [setupIPFS] and
    [getContractInstance], and the React state they publish into.

    Conventions.
    - An [async] function is a computation in the monad [M]: it threads the
      observable world (console, random draws, outgoing requests, React
      state) and ends in a completion, [Return v] for a fulfilled promise and
      [Throw e] for a rejected one.  [try]/[catch] is [try_catch].
    - What the browser, web3 and the IPFS client answer is not decided by
      [App.js]; it is read from an environment [Env].
    - [setTimeout] is modelled by a timer queue over a virtual clock in
      milliseconds (module [EventLoop]). *)

From Stdlib Require Import NArith List String Ascii Bool Sorted Lia.
From stdpp Require Import base option list gmap strings.

Set Warnings "-register-all".
Local Open Scope string_scope.
Local Open Scope N_scope.

(** ** JavaScript values used by the file *)

Module Js.

(** A JavaScript string is a sequence of UTF-16 code units. *)
Definition jsstring := list N.

(** A literal written in the source; every literal of [App.js] that the
    model turns into code units is plain ASCII. *)
Definition lit (s : string) : jsstring :=
  map N_of_ascii (list_ascii_of_string s).

(** [s.substring(start, end)] (ECMAScript, String.prototype.substring):
    both indices are clamped to the length and swapped when out of order. *)
Definition substring (start end_ : nat) (s : jsstring) : jsstring :=
  let len := length s in
  let intStart := Nat.min start len in
  let intEnd := Nat.min end_ len in
  let from := Nat.min intStart intEnd in
  let to := Nat.max intStart intEnd in
  take (to - from) (drop from s).

Definition is_high_surrogate (c : N) : bool := (0xD800 <=? c) && (c <=? 0xDBFF).
Definition is_low_surrogate (c : N) : bool := (0xDC00 <=? c) && (c <=? 0xDFFF).

(** Code units to Unicode scalar values, as [TextEncoder] reads its
    argument: a surrogate pair is one scalar value, a lone surrogate is
    replaced by U+FFFD. *)
Fixpoint scalar_values (s : jsstring) : list N :=
  match s with
  | [] => []
  | c :: t =>
      if is_high_surrogate c then
        match t with
        | d :: r =>
            if is_low_surrogate d
            then (0x10000 + N.shiftl (c - 0xD800) 10 + (d - 0xDC00)) :: scalar_values r
            else 0xFFFD :: scalar_values t
        | [] => [0xFFFD]
        end
      else if is_low_surrogate c then 0xFFFD :: scalar_values t
      else c :: scalar_values t
  end.

(** UTF-8 bytes of one scalar value. *)
Definition utf8_bytes (c : N) : list N :=
  if c <? 0x80 then [c]
  else if c <? 0x800 then
    [N.lor 0xC0 (N.shiftr c 6); N.lor 0x80 (N.land c 0x3F)]
  else if c <? 0x10000 then
    [N.lor 0xE0 (N.shiftr c 12);
     N.lor 0x80 (N.land (N.shiftr c 6) 0x3F);
     N.lor 0x80 (N.land c 0x3F)]
  else
    [N.lor 0xF0 (N.shiftr c 18);
     N.lor 0x80 (N.land (N.shiftr c 12) 0x3F);
     N.lor 0x80 (N.land (N.shiftr c 6) 0x3F);
     N.lor 0x80 (N.land c 0x3F)].

(** [new TextEncoder().encode(s)]: the contents of the returned
    [Uint8Array]. *)
Definition TextEncoder_encode (s : jsstring) : list N :=
  flat_map utf8_bytes (scalar_values s).

(** What a [throw] carries.  Every failure the file can meet is raised by
    web3, by the IPFS client or by the runtime itself and is an [Error]
    object, so reading [error.message] in a [catch] block does not raise. *)
Record Error := { message : string }.

Inductive Completion (A : Type) : Type :=
| Return (a : A)
| Throw (e : Error).
Arguments Return {A} a.
Arguments Throw {A} e.

End Js.
Export Js.

(** ** Timers *)

Module EventLoop.

(** A function value handed in by the caller ([callback], [resolve],
    [reject]); the model knows it by identity only. *)
Definition Callback := nat.

(** The confirmation object of a write: [{ transactionHash: ... }]. *)
Record Confirmation := { transactionHash : string }.

(** What a timer body passes to the function it calls:
    [callback(result.transactionHash)] or [resolve(result)]. *)
Inductive Arg :=
| ArgHash (h : string)
| ArgResult (r : Confirmation).

(** A pending [setTimeout(() => callee(arg), delay)] and the instant at
    which it was created. *)
Record Timer := {
  created : N;
  delay : N;
  callee : Callback;
  arg : Arg
}.

Definition due (t : Timer) : N := created t + delay t.

(** The virtual clock (milliseconds) and the timers created so far, oldest
    first.  Nothing in [App.js] clears a timer. *)
Record Loop := { now : N; timers : list Timer }.

Definition start : Loop := {| now := 0; timers := [] |}.

Definition setTimeout (callee : Callback) (arg : Arg) (delay : N) (l : Loop) : Loop :=
  {| now := now l;
     timers := timers l ++ [{| created := now l; delay := delay; callee := callee; arg := arg |}] |}.

(** Time passes with nothing of the caller running. *)
Definition sleep (d : N) (l : Loop) : Loop :=
  {| now := now l + d; timers := timers l |}.

(** Put [t] into a list that is already in firing order: before the first
    timer that is due no earlier.  [t] is older than every timer of [l]. *)
Fixpoint enqueue (t : Timer) (l : list Timer) : list Timer :=
  match l with
  | [] => [t]
  | u :: r => if due t <=? due u then t :: u :: r else u :: enqueue t r
  end.

(** Firing order of a list of timers given oldest first: by due time, and
    in creation order among timers due at the same instant. *)
Fixpoint firing_order (ts : list Timer) : list Timer :=
  match ts with
  | [] => []
  | t :: r => enqueue t (firing_order r)
  end.

(** [a] fires no later than [b]. *)
Definition no_later (a b : Timer) : Prop := due a <= due b.

(** The timers in the order in which they fire. *)
Definition fired (l : Loop) : list Timer := firing_order (timers l).

End EventLoop.
Export EventLoop.

(** ** web3, as [App.js] sees it *)

Module Web3.

(** A provider object found in the page ([window.ethereum],
    [Web3.givenProvider]), known by identity. *)
Definition Provider := nat.

(** The argument of [new Web3(...)]: a provider object or a URL. *)
Inductive ProviderArg :=
| Injected (p : Provider)
| Endpoint (url : string).

Record Instance := { currentProvider : ProviderArg }.

(** The interface description: the names of the functions it declares. *)
Definition Abi := list string.

(** [new web3.eth.Contract(jsonInterface, address)] *)
Record Contract := {
  provider : ProviderArg;
  jsonInterface : Abi;
  address : string
}.

End Web3.

(** ** The simulated contract *)

Module MockContract.

(** A promise that is already settled ([Promise.resolve(v)]). *)
Inductive Promise (A : Type) : Type :=
| Fulfilled (a : A).
Arguments Fulfilled {A} a.

(** The object built by [createMockPromiEvent(result)]; [result] is the
    only variable its three methods close over. *)
Record MockEvent := { result : Confirmation }.

Definition createMockPromiEvent (result : Confirmation) : MockEvent :=
  {| result := result |}.

(** [mockEvent.on(event, callback)] *)
Definition on (mockEvent : MockEvent) (event : string) (callback : Callback)
    (l : Loop) : MockEvent * Loop :=
  if String.eqb event "transactionHash" then
    (mockEvent, setTimeout callback (ArgHash (transactionHash (result mockEvent))) 100 l)
  else if String.eqb event "error" then
    (mockEvent, l)
  else
    (mockEvent, l).

(** [mockEvent.then(resolve)]: [resolve] is called by the timer; the
    promise handed back is [Promise.resolve(result)], fulfilled at once. *)
Definition then_ (mockEvent : MockEvent) (resolve : Callback)
    (l : Loop) : Promise Confirmation * Loop :=
  (Fulfilled (result mockEvent),
   setTimeout resolve (ArgResult (result mockEvent)) 200 l).

(** [mockEvent.catch(reject)] *)
Definition catch (mockEvent : MockEvent) (reject : Callback)
    (l : Loop) : Promise Confirmation * Loop :=
  (Fulfilled (result mockEvent), l).

(** Values returned by the simulated reads. *)
Inductive JsValue :=
| VString (s : string)
| VBool (b : bool)
| VArray (items : list JsValue)
| VObject (fields : list (string * JsValue)).

(** What a method of [methods] returns when called: an object with a
    [send] that builds a fresh mock event, or an object with a [call]
    that resolves to a value. *)
Inductive TxObject :=
| Sender (send : MockEvent)
| Caller (call : JsValue).

Record Contract := {
  methods : gmap string TxObject;
  options_address : string
}.

Definition sends (hash : string) : TxObject :=
  Sender (createMockPromiEvent {| transactionHash := hash |}).

(** [createMockContract(web3)]; the argument is not used by the body. *)
Definition createMockContract (web3 : Web3.Instance) : Contract :=
  {| methods := list_to_map [
       ("register", sends "0xmock123");
       ("login", Caller (VString "1"));
       ("patientInfo", Caller (VObject [
          ("name", VString "Test Patient");
          ("email", VString "patient@test.com");
          ("age", VString "30");
          ("record", VString "QmMockHash123");
          ("exists", VBool true);
          ("policyActive", VBool false)]));
       ("doctorInfo", Caller (VObject [
          ("name", VString "Test Doctor");
          ("email", VString "doctor@test.com");
          ("exists", VBool true)]));
       ("insurerInfo", Caller (VObject [
          ("name", VString "Test Insurer");
          ("email", VString "insurer@test.com");
          ("exists", VBool true)]));
       ("getPatientDoctorList", Caller (VArray []));
       ("getDoctorPatientList", Caller (VArray []));
       ("getPatientTransactions", Caller (VArray []));
       ("getDoctorTransactions", Caller (VArray []));
       ("getInsurerPolicyList", Caller (VArray []));
       ("getInsurerClaims", Caller (VArray []));
       ("getAllPolicies", Caller (VArray []));
       ("getAllDoctorsAddress", Caller (VArray []));
       ("getAllInsurersAddress", Caller (VArray []));
       ("permitAccess", sends "0xmock456");
       ("buyPolicy", sends "0xmock789");
       ("revokeAccess", sends "0xmockABC");
       ("insuranceClaimRequest", sends "0xmockDEF");
       ("createPolicy", sends "0xmockGHI");
       ("approveClaimsByInsurer", sends "0xmockJKL");
       ("rejectClaimsByInsurer", sends "0xmockMNO")
     ];
     options_address := "0xMockContractAddress" |}.

(** The write operations of the simulated contract. *)
Definition write_operations : list string :=
  ["register"; "permitAccess"; "buyPolicy"; "revokeAccess";
   "insuranceClaimRequest"; "createPolicy";
   "approveClaimsByInsurer"; "rejectClaimsByInsurer"].

(** How a caller uses a mock event: the calls it makes on it, each after
    waiting some milliseconds since the previous one. *)
Inductive Use :=
| UseOn (event : string) (callback : Callback)
| UseThen (resolve : Callback)
| UseCatch (reject : Callback).

Definition perform (mockEvent : MockEvent) (u : Use) (l : Loop) : Loop :=
  match u with
  | UseOn event callback => snd (on mockEvent event callback l)
  | UseThen resolve => snd (then_ mockEvent resolve l)
  | UseCatch reject => snd (catch mockEvent reject l)
  end.

Fixpoint perform_all (mockEvent : MockEvent) (script : list (N * Use)) (l : Loop) : Loop :=
  match script with
  | [] => l
  | (wait, u) :: rest => perform_all mockEvent rest (perform mockEvent u (sleep wait l))
  end.

(** Everything that is ever called back, in order, when the caller runs
    [script] against [mockEvent] from a fresh page. *)
Definition timeline (mockEvent : MockEvent) (script : list (N * Use)) : list Timer :=
  fired (perform_all mockEvent script start).

End MockContract.

(** ** The contract artifact and the IPFS client, as [App.js] sees them *)

Module Artifact.

(** An entry of [MediChain.networks]. *)
Record NetworkData := { address : string }.

(** [contracts/MediChain.json], the build artifact bundled with the
    client.  The file is not part of the client's sources; the model takes
    it from the environment. *)
Record t := {
  abi : Web3.Abi;
  networks : gmap N NetworkData
}.

End Artifact.

Module IpfsHttpClient.

(** The options given to [create] and kept by the client it returns. *)
Record Client := { url : string; timeout : N }.

End IpfsHttpClient.

(** ** State, environment and the monad of [async] functions *)

(** The value held in the [mediChain] state once resolved. *)
Inductive LedgerHandle :=
| RealContract (c : Web3.Contract)
| SimulatedContract (c : MockContract.Contract).

(** The value held in the [ipfs] state. *)
Inductive ContentStoreHandle :=
| RealStore (client : IpfsHttpClient.Client)
| mockIpfs.

(** The four [useState] cells of [App]; [None] is [null]. *)
Record AppState := {
  account : string;
  token : string;
  mediChain : option LedgerHandle;
  ipfs : option ContentStoreHandle
}.

Inductive Level := Log | Info | Warn | Err.

Inductive LogArg :=
| LStr (s : string)
| LJs (s : jsstring)
| LNum (n : N).

(** A request that leaves the page. *)
Inductive Request :=
| NetGetId (p : Web3.ProviderArg)
| EthCall (c : Web3.Contract) (method : string)
| IpfsVersion (client : IpfsHttpClient.Client).

Record World := {
  console : list (Level * list LogArg);   (* oldest first *)
  draws : nat;                            (* calls to Math.random so far *)
  requests : list Request;                (* oldest first *)
  react : AppState
}.

(** Everything [App.js] reads from outside. *)
Record Env := {
  (** the [k]-th value of [Math.random()], as [toString(36)] prints it *)
  Math_random_toString36 : nat -> jsstring;
  window_ethereum : option Web3.Provider;
  Web3_givenProvider : option Web3.Provider;
  (** whether [new Web3(p)] raises for a provider object [p] *)
  Web3_rejects : Web3.Provider -> option Error;
  (** the answer to [web3.eth.net.getId()] *)
  net_getId : Web3.ProviderArg -> Completion N;
  (** whether [new web3.eth.Contract(abi, address)] raises *)
  Contract_rejects : Web3.Abi -> string -> option Error;
  (** the answer to [methods.name().call()] on a contract *)
  name_call : Web3.Contract -> Completion string;
  (** the answer to [ipfs.version()] *)
  ipfs_version : IpfsHttpClient.Client -> Completion string;
  MediChain : Artifact.t
}.

Definition M (A : Type) : Type := Env -> World -> Completion A * World.

#[export] Instance M_ret : MRet M := fun A a _ w => (Return a, w).

#[export] Instance M_bind : MBind M := fun A B f m env w =>
  match m env w with
  | (Return a, w') => f a env w'
  | (Throw e, w') => (Throw e, w')
  end.

Definition throw {A : Type} (e : Error) : M A := fun _ w => (Throw e, w).

(** [try { body } catch (error) { handler }]; what [body] did to the world
    before raising stays done. *)
Definition try_catch {A : Type} (body : M A) (handler : Error -> M A) : M A :=
  fun env w =>
    match body env w with
    | (Return a, w') => (Return a, w')
    | (Throw e, w') => handler e env w'
    end.

Definition ask : M Env := fun env w => (Return env, w).

Definition modify (f : World -> World) : M unit := fun _ w => (Return tt, f w).

Definition console_put (lvl : Level) (args : list LogArg) : M unit :=
  modify (fun w => {| console := (console w ++ [(lvl, args)])%list; draws := draws w;
                      requests := requests w; react := react w |}).

Definition send_request (r : Request) : M unit :=
  modify (fun w => {| console := console w; draws := draws w;
                      requests := (requests w ++ [r])%list; react := react w |}).

Definition set_react (f : AppState -> AppState) : M unit :=
  modify (fun w => {| console := console w; draws := draws w;
                      requests := requests w; react := f (react w) |}).

Definition setAccount (a : string) : M unit :=
  set_react (fun s => {| account := a; token := token s; mediChain := mediChain s; ipfs := ipfs s |}).

Definition setToken (t : string) : M unit :=
  set_react (fun s => {| account := account s; token := t; mediChain := mediChain s; ipfs := ipfs s |}).

Definition setMediChain (h : LedgerHandle) : M unit :=
  set_react (fun s => {| account := account s; token := token s; mediChain := Some h; ipfs := ipfs s |}).

Definition setIpfs (h : ContentStoreHandle) : M unit :=
  set_react (fun s => {| account := account s; token := token s; mediChain := mediChain s; ipfs := Some h |}).

(** [Math.random().toString(36)] *)
Definition Math_random_36 : M jsstring := fun env w =>
  (Return (Math_random_toString36 env (draws w)),
   {| console := console w; draws := S (draws w); requests := requests w; react := react w |}).

(** [await] of an answer that comes from outside. *)
Definition await {A : Type} (r : Request) (answer : Env -> Completion A) : M A :=
  send_request r;; (fun env w => (answer env, w)).

(** ** [mockIpfs] *)

Module MockIpfs.

(** What a caller hands to [add]: bytes ([Buffer], [Uint8Array]) or text. *)
Inductive Content :=
| Bytes (b : list N)
| Text (s : jsstring).

Record AddResult := { path : jsstring }.

(** [mockIpfs.add] *)
Definition add (content : Content) : M AddResult :=
  console_put Log [LStr "🔧 Using Mock IPFS - File upload simulated"];;
  r ← Math_random_36;
  let mockHash := (lit "Qm" ++ substring 2 48 r)%list in
  mret {| path := mockHash |}.

(** [mockIpfs.cat]; the result is the contents of the [Uint8Array]. *)
Definition cat (hash : jsstring) : M (list N) :=
  console_put Log [LStr "🔧 Using Mock IPFS - File retrieval simulated for hash:"; LJs hash];;
  mret (TextEncoder_encode (lit "Mock file content for hash: " ++ hash)%list).

End MockIpfs.

(** ** [setupIPFS] *)

(** [create(options)] of ipfs-http-client: builds the client object; no
    request is made until a method of the client is called. *)
Definition create (url : string) (timeout : N) : M IpfsHttpClient.Client :=
  mret {| IpfsHttpClient.url := url; IpfsHttpClient.timeout := timeout |}.

(** The [catch] block of [setupIPFS]. *)
Definition setupIPFS_failed (error : Error) : M ContentStoreHandle :=
  console_put Warn [LStr "❌ Local IPFS connection failed, using mock IPFS instead"];;
  console_put Warn [LStr "Error details:"; LStr (message error)];;
  console_put Info [LStr "💡 To fix: Configure CORS in IPFS or use IPFS Desktop with web interface enabled"];;
  mret mockIpfs.

Definition setupIPFS : M ContentStoreHandle :=
  try_catch
    (ipfs ← create "http://127.0.0.1:5001/api/v0" 3000;
     _ ← await (IpfsVersion ipfs) (fun env => ipfs_version env ipfs);
     console_put Log [LStr "✅ Successfully connected to local IPFS node"];;
     mret (RealStore ipfs))
    setupIPFS_failed.

(** ** [App]: [getContractInstance] and [initializeIPFS] *)

(** [useState('')], [useState('')], [useState(null)], [useState(mockIpfs)] *)
Definition initial_state : AppState :=
  {| account := ""; token := ""; mediChain := None; ipfs := Some mockIpfs |}.

Definition sentinel_address : string := "0x9876543210987654321098765432109876543210".

(** [window.ethereum || Web3.givenProvider || 'http://localhost:7545'] *)
Definition chosen_provider (env : Env) : Web3.ProviderArg :=
  match window_ethereum env with
  | Some p => Web3.Injected p
  | None =>
      match Web3_givenProvider env with
      | Some p => Web3.Injected p
      | None => Web3.Endpoint "http://localhost:7545"
      end
  end.

(** [new Web3(arg)].  Given a URL, web3 builds an HTTP provider for it
    without opening a connection, and does not raise. *)
Definition new_Web3 (arg : Web3.ProviderArg) : M Web3.Instance := fun env w =>
  match arg with
  | Web3.Injected p =>
      match Web3_rejects env p with
      | Some e => (Throw e, w)
      | None => (Return {| Web3.currentProvider := arg |}, w)
      end
  | Web3.Endpoint _ => (Return {| Web3.currentProvider := arg |}, w)
  end.

(** [new web3.eth.Contract(abi, address)] *)
Definition new_Contract (web3 : Web3.Instance) (abi : Web3.Abi) (address : string)
    : M Web3.Contract := fun env w =>
  match Contract_rejects env abi address with
  | Some e => (Throw e, w)
  | None => (Return {| Web3.provider := Web3.currentProvider web3;
                       Web3.jsonInterface := abi;
                       Web3.address := address |}, w)
  end.

(** [mediChain.methods.name().call()]: [methods.name] is undefined, and
    calling it a [TypeError], when the interface declares no [name]. *)
Definition methods_name_call (c : Web3.Contract) : M string :=
  if existsb (String.eqb "name") (Web3.jsonInterface c)
  then await (EthCall c "name") (fun env => name_call env c)
  else throw {| message := "mediChain.methods.name is not a function" |}.

(** The tail of the [try] block of [getContractInstance], from
    "Fallback to mock contract" on. *)
Definition fallback_to_mock (web3 : Web3.Instance) : M unit :=
  console_put Warn [LStr "📝 Smart contract not properly deployed, using mock contract for testing"];;
  console_put Info [LStr "💡 To fix: Deploy the contract to your local Ganache network"];;
  let mockContract := MockContract.createMockContract web3 in
  setMediChain (SimulatedContract mockContract).

(** The [catch] block of [getContractInstance]. *)
Definition on_error (error : Error) : M unit :=
  console_put Err [LStr "❌ Error loading contract, using mock contract:"; LStr (message error)];;
  web3 ← new_Web3 (Web3.Endpoint "http://localhost:7545");
  let mockContract := MockContract.createMockContract web3 in
  setMediChain (SimulatedContract mockContract).

(** [getContractInstance].  The [return] inside the inner [try] is the
    [true] that skips the fallback. *)
Definition getContractInstance : M unit :=
  try_catch
    (env ← ask;
     web3 ← new_Web3 (chosen_provider env);
     networkId ← await (NetGetId (Web3.currentProvider web3))
                       (fun env => net_getId env (Web3.currentProvider web3));
     console_put Log [LStr "🌐 Current network ID:"; LNum networkId];;
     let networkData := Artifact.networks (MediChain env) !! networkId in
     returned ←
       match networkData with
       | Some networkData =>
           if negb (String.eqb (Artifact.address networkData) sentinel_address) then
             console_put Log [LStr "🚀 Attempting to load real contract at address:";
                              LStr (Artifact.address networkData)];;
             mediChain ← new_Contract web3 (Artifact.abi (MediChain env))
                                      (Artifact.address networkData);
             try_catch
               (_ ← methods_name_call mediChain;
                setMediChain (RealContract mediChain);;
                console_put Log [LStr "✅ Real contract loaded successfully!"];;
                mret true)
               (fun error =>
                console_put Warn [LStr "⚠️ Contract exists in config but not deployed:";
                                  LStr (message error)];;
                mret false)
           else mret false
       | None => mret false
       end;
     if returned : bool then mret tt else fallback_to_mock web3)
    on_error.

(** [initializeIPFS] *)
Definition initializeIPFS : M unit :=
  ipfsInstance ← setupIPFS;
  setIpfs ipfsInstance.

(** The page as it is when [App] first renders. *)
Definition fresh_page : World :=
  {| console := []; draws := 0%nat; requests := []; react := initial_state |}.

(** ** Start-up as a transition system

    [useEffect] calls [getContractInstance()] and [initializeIPFS()] without
    awaiting either, so the two run interleaved: each runs from one [await]
    to the next without interruption, and anything else may run in between.
    A resolver is therefore a program counter (where it is suspended, with
    the variables it still needs) and a function that runs one stretch. *)

Inductive LedgerPc :=
| LedgerStart                                   (* not yet called *)
| AwaitNetId (web3 : Web3.Instance)             (* at [await web3.eth.net.getId()] *)
| AwaitProbe (web3 : Web3.Instance) (mediChain : Web3.Contract)
                                                (* at [await mediChain.methods.name().call()] *)
| LedgerDone (c : Completion unit).             (* the promise is settled *)

Inductive StorePc :=
| StoreStart                                    (* not yet called *)
| AwaitVersion (ipfs : IpfsHttpClient.Client)   (* at [await ipfs.version()] *)
| AwaitSetup (c : Completion ContentStoreHandle)(* at [await setupIPFS()] *)
| StoreDone (c : Completion unit).

(** One stretch of [getContractInstance] inside its outer [try]: [body]
    either suspends at the next [await] or ends; a failure runs the [catch]
    block. *)
Definition ledger_stretch (body : M LedgerPc) (env : Env) (w : World) : LedgerPc * World :=
  match try_catch body (fun error => on_error error;; mret (LedgerDone (Return tt))) env w with
  | (Return pc, w') => (pc, w')
  | (Throw e, w') => (LedgerDone (Throw e), w')
  end.

Definition ledger_resume (pc : LedgerPc) : Env -> World -> LedgerPc * World :=
  match pc with
  | LedgerStart =>
      ledger_stretch
        (env ← ask;
         web3 ← new_Web3 (chosen_provider env);
         send_request (NetGetId (Web3.currentProvider web3));;
         mret (AwaitNetId web3))
  | AwaitNetId web3 =>
      ledger_stretch
        (networkId ← (fun env w => (net_getId env (Web3.currentProvider web3), w));
         env ← ask;
         console_put Log [LStr "🌐 Current network ID:"; LNum networkId];;
         match Artifact.networks (MediChain env) !! networkId with
         | Some networkData =>
             if negb (String.eqb (Artifact.address networkData) sentinel_address) then
               console_put Log [LStr "🚀 Attempting to load real contract at address:";
                                LStr (Artifact.address networkData)];;
               mediChain ← new_Contract web3 (Artifact.abi (MediChain env))
                                        (Artifact.address networkData);
               if existsb (String.eqb "name") (Web3.jsonInterface mediChain) then
                 send_request (EthCall mediChain "name");;
                 mret (AwaitProbe web3 mediChain)
               else
                 console_put Warn [LStr "⚠️ Contract exists in config but not deployed:";
                                   LStr "mediChain.methods.name is not a function"];;
                 fallback_to_mock web3;;
                 mret (LedgerDone (Return tt))
             else fallback_to_mock web3;; mret (LedgerDone (Return tt))
         | None => fallback_to_mock web3;; mret (LedgerDone (Return tt))
         end)
  | AwaitProbe web3 mediChain =>
      ledger_stretch
        (returned ←
           try_catch
             (_ ← (fun env w => (name_call env mediChain, w));
              setMediChain (RealContract mediChain);;
              console_put Log [LStr "✅ Real contract loaded successfully!"];;
              mret true)
             (fun error =>
              console_put Warn [LStr "⚠️ Contract exists in config but not deployed:";
                                LStr (message error)];;
              mret false);
         (if returned : bool then mret tt else fallback_to_mock web3);;
         mret (LedgerDone (Return tt)))
  | LedgerDone c => fun _ w => (LedgerDone c, w)
  end.

(** One stretch of [setupIPFS] inside its [try]. *)
Definition store_stretch (body : M StorePc) (env : Env) (w : World) : StorePc * World :=
  match try_catch body
          (fun error => h ← setupIPFS_failed error; mret (AwaitSetup (Return h))) env w with
  | (Return pc, w') => (pc, w')
  | (Throw e, w') => (AwaitSetup (Throw e), w')
  end.

Definition store_resume (pc : StorePc) : Env -> World -> StorePc * World :=
  match pc with
  | StoreStart =>
      store_stretch
        (ipfs ← create "http://127.0.0.1:5001/api/v0" 3000;
         send_request (IpfsVersion ipfs);;
         mret (AwaitVersion ipfs))
  | AwaitVersion ipfs =>
      store_stretch
        (_ ← (fun env w => (ipfs_version env ipfs, w));
         console_put Log [LStr "✅ Successfully connected to local IPFS node"];;
         mret (AwaitSetup (Return (RealStore ipfs))))
  | AwaitSetup c => fun env w =>
      (* [initializeIPFS] resumes with the outcome of [setupIPFS()] *)
      let (c', w') := (ipfsInstance ← (fun _ w => (c, w)); setIpfs ipfsInstance) env w in
      (StoreDone c', w')
  | StoreDone c => fun _ w => (StoreDone c, w)
  end.

Fixpoint ledger_run (stretches : nat) (pc : LedgerPc) (env : Env) (w : World) : LedgerPc * World :=
  match stretches with
  | O => (pc, w)
  | S n => let (pc', w') := ledger_resume pc env w in ledger_run n pc' env w'
  end.

Fixpoint store_run (stretches : nat) (pc : StorePc) (env : Env) (w : World) : StorePc * World :=
  match stretches with
  | O => (pc, w)
  | S n => let (pc', w') := store_resume pc env w in store_run n pc' env w'
  end.

Definition ledger_settled (pc : LedgerPc) : bool :=
  match pc with LedgerDone _ => true | _ => false end.

Definition store_settled (pc : StorePc) : bool :=
  match pc with StoreDone _ => true | _ => false end.

(** The page: the world and the two resolvers. *)
Record Page := {
  world : World;
  ledger : LedgerPc;
  store : StorePc
}.

(** [App] has rendered for the first time; the effect has not run yet. *)
Definition mounted : Page :=
  {| world := fresh_page; ledger := LedgerStart; store := StoreStart |}.

(** What can happen next on the page. *)
Inductive step (env : Env) : Page -> Page -> Prop :=
| step_ledger p pc w :
    ledger_settled (ledger p) = false ->
    ledger_resume (ledger p) env (world p) = (pc, w) ->
    step env p {| world := w; ledger := pc; store := store p |}
| step_store p pc w :
    store_settled (store p) = false ->
    store_resume (store p) env (world p) = (pc, w) ->
    step env p {| world := w; ledger := ledger p; store := pc |}
| step_setAccount p a w :
    (* the wallet-connection flow, or a routed view *)
    setAccount a env (world p) = (Return tt, w) ->
    step env p {| world := w; ledger := ledger p; store := store p |}
| step_setToken p t w :
    (* the login flow *)
    setToken t env (world p) = (Return tt, w) ->
    step env p {| world := w; ledger := ledger p; store := store p |}
| step_reload p :
    (* [window.location.reload()] on [chainChanged] *)
    step env p mounted.

Definition reachable (env : Env) (p : Page) : Prop := rtc (step env) mounted p.

(** ** Two environments used as examples *)

(** No wallet, nothing listening on the local endpoints. *)
Definition offline : Env :=
  {| Math_random_toString36 := fun k => lit "0.4fzyo82mvyr";
     window_ethereum := None;
     Web3_givenProvider := None;
     Web3_rejects := fun _ => None;
     net_getId := fun _ => Throw {| message := "Invalid JSON RPC response" |};
     Contract_rejects := fun _ _ => None;
     name_call := fun _ => Throw {| message := "Invalid JSON RPC response" |};
     ipfs_version := fun _ => Throw {| message := "request timed out" |};
     MediChain := {| Artifact.abi := ["name"; "register"; "login"];
                     Artifact.networks := ∅ |} |}.

(** A wallet on network 5777, the contract deployed there at [0xREAL] and
    answering, and a local IPFS node. *)
Definition ganache : Env :=
  {| Math_random_toString36 := fun k => lit "0.4fzyo82mvyr";
     window_ethereum := Some 1%nat;
     Web3_givenProvider := None;
     Web3_rejects := fun _ => None;
     net_getId := fun _ => Return 5777;
     Contract_rejects := fun _ _ => None;
     name_call := fun _ => Return "MediChain";
     ipfs_version := fun _ => Return "0.12.0";
     MediChain := {| Artifact.abi := ["name"; "register"; "login"];
                     Artifact.networks := {[ 5777 := {| Artifact.address := "0xREAL" |} ]} |} |}.

(** A wallet on network 5777 while the artifact still carries the
    placeholder address for it, and no IPFS node.  Successive draws of
    [Math.random] differ. *)
Definition undeployed : Env :=
  {| Math_random_toString36 := fun k => (lit "0.8d2k" ++ [97 + N.of_nat k])%list;
     window_ethereum := Some 1%nat;
     Web3_givenProvider := None;
     Web3_rejects := fun _ => None;
     net_getId := fun _ => Return 5777;
     Contract_rejects := fun _ _ => None;
     name_call := fun _ => Throw {| message := "Returned values aren't valid" |};
     ipfs_version := fun _ => Throw {| message := "request timed out" |};
     MediChain := {| Artifact.abi := ["name"; "register"; "login"];
                     Artifact.networks :=
                       {[ 5777 := {| Artifact.address := sentinel_address |} ]} |} |}.

(** The bytes of the text that [mockIpfs.cat] makes up for the identifier
    [Qm4fzyo82mvyr]. *)
Definition made_up_file : list N :=
  Eval cbv in map N_of_ascii (list_ascii_of_string "Mock file content for hash: Qm4fzyo82mvyr").

(** [ipfs.add(x)] followed by [ipfs.cat] of the identifier it returned. *)
Definition add_then_cat (x : MockIpfs.Content) : M (list N) :=
  r ← MockIpfs.add x; MockIpfs.cat (MockIpfs.path r).

(** ** The stages of ledger resolution

    The ways resolution can fall short of a live contract, and the pure
    decision that [getContractInstance] is shown to implement. *)

Inductive Failure :=
| ProviderUnavailable        (* [new Web3(...)] raised *)
| NetworkQueryFailed         (* [web3.eth.net.getId()] was rejected *)
| NoDeploymentForNetwork     (* no record for the network, or the placeholder address *)
| ContractNotLive.           (* the contract could not be built, or [name()] failed *)

(** Whether [new Web3(window.ethereum || ...)] raises. *)
Definition provider_failure (env : Env) : option Error :=
  match chosen_provider env with
  | Web3.Injected p => Web3_rejects env p
  | Web3.Endpoint _ => None
  end.

(** The first stage that fails in [env], or the contract that passes all. *)
Definition resolution (env : Env) : Failure + Web3.Contract :=
  match provider_failure env with
  | Some _ => inl ProviderUnavailable
  | None =>
      match net_getId env (chosen_provider env) with
      | Throw _ => inl NetworkQueryFailed
      | Return networkId =>
          match Artifact.networks (MediChain env) !! networkId with
          | None => inl NoDeploymentForNetwork
          | Some networkData =>
              if String.eqb (Artifact.address networkData) sentinel_address
              then inl NoDeploymentForNetwork
              else
                let c := {| Web3.provider := chosen_provider env;
                            Web3.jsonInterface := Artifact.abi (MediChain env);
                            Web3.address := Artifact.address networkData |} in
                match Contract_rejects env (Artifact.abi (MediChain env))
                                       (Artifact.address networkData) with
                | Some _ => inl ContractNotLive
                | None =>
                    if existsb (String.eqb "name") (Artifact.abi (MediChain env)) then
                      match name_call env c with
                      | Return _ => inr c
                      | Throw _ => inl ContractNotLive
                      end
                    else inl ContractNotLive
                end
          end
      end
  end.

(** [new Web3('http://localhost:7545')] *)
Definition local_web3 : Web3.Instance :=
  {| Web3.currentProvider := Web3.Endpoint "http://localhost:7545" |}.

(** The handle built by [createMockContract]; it is the same whatever web3
    instance is passed in. *)
Definition simulated_handle : LedgerHandle :=
  SimulatedContract (MockContract.createMockContract local_web3).

Definition published (env : Env) : LedgerHandle :=
  match resolution env with
  | inl _ => simulated_handle
  | inr c => RealContract c
  end.

(** The liveness probe of [getContractInstance]: bind a contract to the
    recorded interface and address, and read its [name()]. *)
Definition liveness_probe (web3 : Web3.Instance) (abi : Web3.Abi) (address : string) : M string :=
  mediChain ← new_Contract web3 abi address;
  methods_name_call mediChain.

(** [env] with the wallet switched to network [networkId]. *)
Definition on_network (networkId : N) (env : Env) : Env :=
  {| Math_random_toString36 := Math_random_toString36 env;
     window_ethereum := window_ethereum env;
     Web3_givenProvider := Web3_givenProvider env;
     Web3_rejects := Web3_rejects env;
     net_getId := fun _ => Return networkId;
     Contract_rejects := Contract_rejects env;
     name_call := name_call env;
     ipfs_version := ipfs_version env;
     MediChain := MediChain env |}.

(** ** Reading a script of calls *)

(** The instant of each call of a script that starts at [t0]. *)
Fixpoint absolute (t0 : N) (script : list (N * MockContract.Use)) : list (N * MockContract.Use) :=
  match script with
  | [] => []
  | (wait, u) :: rest => (t0 + wait, u) :: absolute (t0 + wait) rest
  end.

(** The timers that a call made at a given instant leaves behind. *)
Definition scheduled (mockEvent : MockContract.MockEvent) (call : N * MockContract.Use) : list Timer :=
  timers (MockContract.perform mockEvent (snd call) {| now := fst call; timers := [] |}).

(** The page once the effect has started both resolvers in [ganache]. *)
Definition both_suspended : Page :=
  let (pc, w) := ledger_resume LedgerStart ganache fresh_page in
  let (pc', w') := store_resume StoreStart ganache w in
  {| world := w'; ledger := pc; store := pc' |}.

(** ** What the content-store resolver decides *)

(** The client that [setupIPFS] builds. *)
Definition local_client : IpfsHttpClient.Client :=
  {| IpfsHttpClient.url := "http://127.0.0.1:5001/api/v0";
     IpfsHttpClient.timeout := 3000 |}.

(** The handle [setupIPFS] settles on in [env]. *)
Definition resolved_store (env : Env) : ContentStoreHandle :=
  match ipfs_version env local_client with
  | Return _ => RealStore local_client
  | Throw _ => mockIpfs
  end.

(** [ganache] with an artifact whose interface declares no [name]. *)
Definition nameless : Env :=
  {| Math_random_toString36 := Math_random_toString36 ganache;
     window_ethereum := window_ethereum ganache;
     Web3_givenProvider := Web3_givenProvider ganache;
     Web3_rejects := Web3_rejects ganache;
     net_getId := net_getId ganache;
     Contract_rejects := Contract_rejects ganache;
     name_call := name_call ganache;
     ipfs_version := ipfs_version ganache;
     MediChain := {| Artifact.abi := ["register"; "login"];
                     Artifact.networks := Artifact.networks (MediChain ganache) |} |}.

(** ** Where a resolver stands

    What is known of the page while a resolver is suspended at a given
    point, in terms of what the environment will answer. *)

Definition ledger_on_course (env : Env) (pc : LedgerPc) (s : AppState) : Prop :=
  match pc with
  | LedgerStart => mediChain s = None
  | AwaitNetId web3 =>
      mediChain s = None
      /\ provider_failure env = None
      /\ web3 = {| Web3.currentProvider := chosen_provider env |}
  | AwaitProbe web3 c =>
      mediChain s = None
      /\ resolution env
         = match name_call env c with
           | Return _ => inr c
           | Throw _ => inl ContractNotLive
           end
  | LedgerDone c => c = Return tt /\ mediChain s = Some (published env)
  end.

Definition store_on_course (env : Env) (pc : StorePc) (s : AppState) : Prop :=
  match pc with
  | StoreStart => ipfs s = Some mockIpfs
  | AwaitVersion client => ipfs s = Some mockIpfs /\ client = local_client
  | AwaitSetup c => ipfs s = Some mockIpfs /\ c = Return (resolved_store env)
  | StoreDone c => c = Return tt /\ ipfs s = Some (resolved_store env)
  end.

(** How many stretches a resolver still has to run, at most. *)
Definition ledger_rank (pc : LedgerPc) : nat :=
  match pc with
  | LedgerStart => 3
  | AwaitNetId _ => 2
  | AwaitProbe _ _ => 1
  | LedgerDone _ => 0
  end.

Definition store_rank (pc : StorePc) : nat :=
  match pc with
  | StoreStart => 3
  | AwaitVersion _ => 2
  | AwaitSetup _ => 1
  | StoreDone _ => 0
  end.

(** A page of [ganache] on which both resolvers have settled, the store
    resolver having started first and finished last. *)
Definition both_settled : Page :=
  let (s1, w1) := store_resume StoreStart ganache fresh_page in
  let (l1, w2) := ledger_resume LedgerStart ganache w1 in
  let (l2, w3) := ledger_resume l1 ganache w2 in
  let (s2, w4) := store_resume s1 ganache w3 in
  let (l3, w5) := ledger_resume l2 ganache w4 in
  let (s3, w6) := store_resume s2 ganache w5 in
  {| world := w6; ledger := l3; store := s3 |}.

(** ** Reading the simulated contract and its mock events *)


(** How many elements of a list pass a test. *)
Definition count {A : Type} (f : A -> bool) (l : list A) : nat :=
  length (List.filter f l).

(** The call subscribes [callback] to [transactionHash]. *)
Definition subscribes (callback : Callback) (u : MockContract.Use) : bool :=
  match u with
  | MockContract.UseOn event cb => String.eqb event "transactionHash" && Nat.eqb cb callback
  | _ => false
  end.

(** The call is [then(resolve)]. *)
Definition awaits (resolve : Callback) (u : MockContract.Use) : bool :=
  match u with
  | MockContract.UseThen r => Nat.eqb r resolve
  | _ => false
  end.

(** The call leaves a timer behind. *)
Definition takes_effect (u : MockContract.Use) : bool :=
  match u with
  | MockContract.UseOn event _ => String.eqb event "transactionHash"
  | MockContract.UseThen _ => true
  | MockContract.UseCatch _ => false
  end.

(** The timer calls [callback] with a transaction hash. *)
Definition notifies (callback : Callback) (t : Timer) : bool :=
  Nat.eqb (callee t) callback && match arg t with ArgHash _ => true | ArgResult _ => false end.

(** The timer calls [resolve] with a confirmation. *)
Definition resolves (resolve : Callback) (t : Timer) : bool :=
  Nat.eqb (callee t) resolve && match arg t with ArgHash _ => false | ArgResult _ => true end.

(** * Properties *)

(** ** The simulated content store *)

(** The fixed text in front of the identifier is plain ASCII, so it is
    encoded on its own, byte for byte, whatever follows. *)
Lemma encode_after_fixed_text (hash : jsstring) :
  TextEncoder_encode (lit "Mock file content for hash: " ++ hash)%list
  = (TextEncoder_encode (lit "Mock file content for hash: ") ++ TextEncoder_encode hash)%list.
Proof. reflexivity. Qed.

(** C6. [mockIpfs.cat] never raises and, for every identifier (whether or not
    [add] ever produced it), resolves to the UTF-8 bytes of
    ['Mock file content for hash: '] followed by those of the identifier; the
    answer depends on nothing but the identifier, and the call touches
    nothing but the console. *)
Theorem cat_is_a_function_of_the_identifier (hash : jsstring) :
  (forall env w,
     exists w',
       MockIpfs.cat hash env w
       = (Return (TextEncoder_encode (lit "Mock file content for hash: ")
                  ++ TextEncoder_encode hash)%list, w')
       /\ draws w' = draws w /\ requests w' = requests w /\ react w' = react w)
  /\ (forall env1 w1 env2 w2,
        fst (MockIpfs.cat hash env1 w1) = fst (MockIpfs.cat hash env2 w2)).
Proof.
  split.
  - intros env w. eexists. split.
    + unfold MockIpfs.cat. rewrite encode_after_fixed_text. reflexivity.
    + repeat split.
  - reflexivity.
Qed.

(** What one call of [mockIpfs.add] does, whatever it is given. *)
Lemma add_unfold (content : MockIpfs.Content) (env : Env) (w : World) :
  exists w',
    MockIpfs.add content env w
    = (Return {| MockIpfs.path :=
                   (lit "Qm" ++ substring 2 48 (Math_random_toString36 env (draws w)))%list |},
       w')
    /\ draws w' = S (draws w) /\ requests w' = requests w /\ react w' = react w.
Proof. exists (snd (MockIpfs.add content env w)). split; [reflexivity|]. repeat split. Qed.

(** C5, refuted as stated: when [Math.random] yields the same value twice,
    two calls of [mockIpfs.add] return the same identifier. *)
Lemma add_twice_same_identifier :
  fst ((a ← MockIpfs.add (MockIpfs.Text []);
        b ← MockIpfs.add (MockIpfs.Text []);
        mret (MockIpfs.path a, MockIpfs.path b)) offline fresh_page)
  = Return (lit "Qm4fzyo82mvyr", lit "Qm4fzyo82mvyr").
Proof. reflexivity. Qed.

(** C5, amended.  Every call of [mockIpfs.add] resolves, without raising, to
    an identifier that begins with [Qm] and consumes one draw of
    [Math.random]; the identifiers returned by two calls are equal exactly
    when the two draws have the same characters 2..48 in base 36, so they are
    distinct whenever those suffixes differ. *)
Theorem add_identifiers (env : Env) (c1 c2 : MockIpfs.Content) (w1 w2 : World) :
  exists id1 id2 w1' w2',
    MockIpfs.add c1 env w1 = (Return {| MockIpfs.path := id1 |}, w1')
    /\ MockIpfs.add c2 env w2 = (Return {| MockIpfs.path := id2 |}, w2')
    /\ draws w1' = S (draws w1) /\ draws w2' = S (draws w2)
    /\ lit "Qm" `prefix_of` id1
    /\ lit "Qm" `prefix_of` id2
    /\ (id1 = id2 <->
        substring 2 48 (Math_random_toString36 env (draws w1))
        = substring 2 48 (Math_random_toString36 env (draws w2))).
Proof.
  destruct (add_unfold c1 env w1) as (w1' & E1 & D1 & _).
  destruct (add_unfold c2 env w2) as (w2' & E2 & D2 & _).
  eexists _, _, w1', w2'.
  split; [exact E1|]. split; [exact E2|].
  split; [exact D1|]. split; [exact D2|].
  split; [apply prefix_app_r; reflexivity|].
  split; [apply prefix_app_r; reflexivity|].
  split.
  - intros H. now apply app_inv_head in H.
  - intros H. now rewrite H.
Qed.

(** Two consecutive calls in [undeployed], where the draws differ. *)
Example consecutive_draws_differ :
  fst ((a ← MockIpfs.add (MockIpfs.Text []);
        b ← MockIpfs.add (MockIpfs.Text []);
        mret (MockIpfs.path a, MockIpfs.path b)) undeployed fresh_page)
  = Return (lit "Qm8d2ka", lit "Qm8d2kb").
Proof. reflexivity. Qed.

Lemma add_then_cat_unfold (x : MockIpfs.Content) (env : Env) (w : World) :
  fst (add_then_cat x env w)
  = Return (TextEncoder_encode
              (lit "Mock file content for hash: "
               ++ (lit "Qm" ++ substring 2 48 (Math_random_toString36 env (draws w))))%list).
Proof. reflexivity. Qed.

(** C10, refuted as stated: a content that happens to be the made-up text
    for the identifier about to be drawn comes back unchanged. *)
Lemma made_up_file_comes_back :
  fst (add_then_cat (MockIpfs.Bytes made_up_file) offline fresh_page)
  = Return made_up_file.
Proof. reflexivity. Qed.

(** C10, amended.  With the same randomness, [mockIpfs.add] returns the same
    identifier for any two contents, and [cat] of that identifier is the
    made-up text for it whatever was stored: of two different contents at
    most one can come back, and only if it is that very text. *)
Theorem add_ignores_the_content (env : Env) (w1 w2 : World) (x y : MockIpfs.Content)
    (Hsame : draws w1 = draws w2) :
  fst (MockIpfs.add x env w1) = fst (MockIpfs.add y env w2)
  /\ (exists id,
        fst (MockIpfs.add x env w1) = Return {| MockIpfs.path := id |}
        /\ fst (add_then_cat x env w1)
           = Return (TextEncoder_encode (lit "Mock file content for hash: " ++ id)%list)
        /\ fst (add_then_cat y env w2)
           = Return (TextEncoder_encode (lit "Mock file content for hash: " ++ id)%list))
  /\ (forall bx by_,
        x = MockIpfs.Bytes bx -> y = MockIpfs.Bytes by_ -> bx <> by_ ->
        ~ (fst (add_then_cat x env w1) = Return bx
           /\ fst (add_then_cat y env w2) = Return by_)).
Proof.
  assert (Ex := add_then_cat_unfold x env w1).
  assert (Ey := add_then_cat_unfold y env w2).
  destruct (add_unfold x env w1) as (w1' & Ax & _).
  destruct (add_unfold y env w2) as (w2' & Ay & _).
  rewrite <- Hsame in Ey, Ay.
  split; [|split].
  - now rewrite Ax, Ay.
  - eexists. rewrite Ax, Ex, Ey. repeat split.
  - intros bx by_ _ _ Hne [Hx Hy]. rewrite Ex in Hx. rewrite Ey in Hy. congruence.
Qed.

Lemma add_ignores_the_content_witness :
  draws fresh_page = draws fresh_page
  /\ fst (MockIpfs.add (MockIpfs.Bytes [1; 2; 3]) ganache fresh_page)
     = fst (MockIpfs.add (MockIpfs.Text (lit "record")) ganache fresh_page).
Proof.
  split; [reflexivity|].
  exact (proj1 (add_ignores_the_content ganache fresh_page fresh_page
                  (MockIpfs.Bytes [1; 2; 3]) (MockIpfs.Text (lit "record")) eq_refl)).
Defined.

(** ** [setupIPFS] *)

(** C4. [setupIPFS] sends exactly one request, the version query of a client
    configured with the local endpoint and a timeout of 3000 ms; it resolves
    to that client when the query is answered and to [mockIpfs] when the
    query fails in any way; it never raises and never asks again. *)
Theorem setupIPFS_probes_once (env : Env) (w : World) :
  let client := {| IpfsHttpClient.url := "http://127.0.0.1:5001/api/v0";
                   IpfsHttpClient.timeout := 3000 |} in
  exists w',
    setupIPFS env w
    = (Return match ipfs_version env client with
              | Return _ => RealStore client
              | Throw _ => mockIpfs
              end, w')
    /\ requests w' = (requests w ++ [IpfsVersion client])%list
    /\ draws w' = draws w
    /\ react w' = react w.
Proof.
  intros client. exists (snd (setupIPFS env w)).
  unfold setupIPFS, setupIPFS_failed, try_catch, await, create.
  unfold mbind, M_bind, mret, M_ret, send_request, console_put, modify. cbn.
  fold client. destruct (ipfs_version env client); cbn; repeat split.
Qed.

(** ** [getContractInstance] *)

Ltac unfold_async :=
  unfold getContractInstance, initializeIPFS, setupIPFS, setupIPFS_failed,
    on_error, fallback_to_mock, methods_name_call, new_Contract, new_Web3, create,
    try_catch, await, ask, throw, setMediChain, setIpfs, setAccount, setToken,
    set_react, send_request, console_put, modify, mbind, M_bind, mret, M_ret.

(** [getContractInstance] always settles normally, publishes the handle
    that [resolution] decides on, and touches no other state cell. *)
Lemma getContractInstance_publishes (env : Env) (w : World) :
  exists w',
    getContractInstance env w = (Return tt, w')
    /\ mediChain (react w') = Some (published env)
    /\ account (react w') = account (react w)
    /\ token (react w') = token (react w)
    /\ ipfs (react w') = ipfs (react w)
    /\ draws w' = draws w.
Proof.
  exists (snd (getContractInstance env w)).
  unfold published, resolution, provider_failure.
  unfold_async.
  destruct (chosen_provider env) as [p|url] eqn:Hp; cbn.
  - destruct (Web3_rejects env p); cbn; [repeat split|].
    destruct (net_getId env (Web3.Injected p)) as [networkId|e]; cbn; [|repeat split].
    destruct (Artifact.networks (MediChain env) !! networkId) as [nd|]; cbn; [|repeat split].
    destruct (String.eqb (Artifact.address nd) sentinel_address); cbn; [repeat split|].
    destruct (Contract_rejects env _ _); cbn; [repeat split|].
    destruct (existsb _ _); cbn; [|repeat split].
    destruct (name_call env _); cbn; repeat split.
  - destruct (net_getId env (Web3.Endpoint url)) as [networkId|e]; cbn; [|repeat split].
    destruct (Artifact.networks (MediChain env) !! networkId) as [nd|]; cbn; [|repeat split].
    destruct (String.eqb (Artifact.address nd) sentinel_address); cbn; [repeat split|].
    destruct (Contract_rejects env _ _); cbn; [repeat split|].
    destruct (existsb _ _); cbn; [|repeat split].
    destruct (name_call env _); cbn; repeat split.
Qed.

Lemma new_Web3_outcome (env : Env) (w : World) :
  new_Web3 (chosen_provider env) env w
  = match provider_failure env with
    | Some e => (Throw e, w)
    | None => (Return {| Web3.currentProvider := chosen_provider env |}, w)
    end.
Proof.
  unfold new_Web3, provider_failure.
  destruct (chosen_provider env) as [p|url]; [|reflexivity].
  destruct (Web3_rejects env p); reflexivity.
Qed.

Lemma liveness_probe_outcome (web3 : Web3.Instance) (abi : Web3.Abi) (address : string)
    (env : Env) (w : World) :
  fst (liveness_probe web3 abi address env w)
  = match Contract_rejects env abi address with
    | Some e => Throw e
    | None =>
        if existsb (String.eqb "name") abi
        then name_call env {| Web3.provider := Web3.currentProvider web3;
                              Web3.jsonInterface := abi;
                              Web3.address := address |}
        else Throw {| message := "mediChain.methods.name is not a function" |}
    end.
Proof.
  unfold liveness_probe. unfold_async.
  destruct (Contract_rejects env abi address); cbn; [reflexivity|].
  destruct (existsb _ abi); cbn; reflexivity.
Qed.

(** C1. When the network the provider reports has no record in
    [MediChain.networks], or a record whose address is the placeholder
    [0x9876543210987654321098765432109876543210], [getContractInstance]
    publishes the simulated contract. *)
Theorem unlisted_or_placeholder_network_is_simulated
    (env : Env) (w : World) (networkId : N)
    (Hid : net_getId env (chosen_provider env) = Return networkId)
    (Hrecord :
       Artifact.networks (MediChain env) !! networkId = None
       \/ exists networkData,
            Artifact.networks (MediChain env) !! networkId = Some networkData
            /\ Artifact.address networkData = sentinel_address) :
  exists w',
    getContractInstance env w = (Return tt, w')
    /\ mediChain (react w') = Some simulated_handle.
Proof.
  destruct (getContractInstance_publishes env w) as (w' & Hrun & Hpub & _).
  exists w'. split; [exact Hrun|]. rewrite Hpub. f_equal.
  unfold published, resolution.
  destruct (provider_failure env); [reflexivity|].
  rewrite Hid.
  destruct Hrecord as [Hnone | (nd & Hsome & Haddr)].
  - now rewrite Hnone.
  - rewrite Hsome, Haddr, String.eqb_refl. reflexivity.
Qed.

Lemma unlisted_or_placeholder_network_is_simulated_witness :
  exists w',
    getContractInstance undeployed fresh_page = (Return tt, w')
    /\ mediChain (react w') = Some simulated_handle.
Proof.
  apply (unlisted_or_placeholder_network_is_simulated undeployed fresh_page 5777).
  - reflexivity.
  - right. exists {| Artifact.address := sentinel_address |}. split; reflexivity.
Defined.

(** The other case of C1: the wallet is on a network the artifact does not
    list. *)
Example unlisted_network_is_simulated :
  exists w',
    getContractInstance (on_network 1 ganache) fresh_page = (Return tt, w')
    /\ mediChain (react w') = Some simulated_handle.
Proof. eexists. split; reflexivity. Qed.

(** C2. When the network the provider reports has a record whose address is
    not the placeholder, and the liveness probe (binding a contract to the
    recorded interface and address and reading [name()]) succeeds,
    [getContractInstance] publishes the real contract bound to exactly that
    address and interface. *)
Theorem live_contract_is_published
    (env : Env) (w : World) (web3 : Web3.Instance)
    (networkId : N) (networkData : Artifact.NetworkData) (name : string)
    (Hprovider : fst (new_Web3 (chosen_provider env) env w) = Return web3)
    (Hid : net_getId env (Web3.currentProvider web3) = Return networkId)
    (Hrecord : Artifact.networks (MediChain env) !! networkId = Some networkData)
    (Haddress : Artifact.address networkData <> sentinel_address)
    (Hprobe : fst (liveness_probe web3 (Artifact.abi (MediChain env))
                     (Artifact.address networkData) env w) = Return name) :
  exists w',
    getContractInstance env w = (Return tt, w')
    /\ mediChain (react w')
       = Some (RealContract {| Web3.provider := Web3.currentProvider web3;
                               Web3.jsonInterface := Artifact.abi (MediChain env);
                               Web3.address := Artifact.address networkData |}).
Proof.
  destruct (getContractInstance_publishes env w) as (w' & Hrun & Hpub & _).
  exists w'. split; [exact Hrun|]. rewrite Hpub. f_equal.
  rewrite new_Web3_outcome in Hprovider.
  rewrite liveness_probe_outcome in Hprobe.
  unfold published, resolution.
  destruct (provider_failure env); [discriminate|].
  cbn in Hprovider. injection Hprovider as <-. cbn in Hid, Hprobe |- *.
  rewrite Hid, Hrecord.
  apply String.eqb_neq in Haddress. rewrite Haddress.
  destruct (Contract_rejects env _ _); [discriminate|].
  destruct (existsb _ _); [|discriminate].
  now rewrite Hprobe.
Qed.

Lemma live_contract_is_published_witness :
  exists w',
    getContractInstance ganache fresh_page = (Return tt, w')
    /\ mediChain (react w')
       = Some (RealContract {| Web3.provider := Web3.Injected 1%nat;
                               Web3.jsonInterface := ["name"; "register"; "login"];
                               Web3.address := "0xREAL" |}).
Proof.
  apply (live_contract_is_published ganache fresh_page
           {| Web3.currentProvider := Web3.Injected 1%nat |}
           5777 {| Artifact.address := "0xREAL" |} "MediChain").
  - reflexivity.
  - reflexivity.
  - reflexivity.
  - vm_compute. discriminate.
  - reflexivity.
Defined.

(** C3. [getContractInstance] never raises: in every environment and from
    every state its promise is fulfilled, and a failure at any stage
    (provider, network query, missing or placeholder record, liveness probe)
    ends with the simulated contract published. *)
Theorem getContractInstance_never_raises (env : Env) (w : World) :
  exists w',
    getContractInstance env w = (Return tt, w')
    /\ is_Some (mediChain (react w'))
    /\ (forall e, (* provider unavailable *)
          fst (new_Web3 (chosen_provider env) env w) = Throw e ->
          mediChain (react w') = Some simulated_handle)
    /\ (forall e, (* network query failed *)
          net_getId env (chosen_provider env) = Throw e ->
          mediChain (react w') = Some simulated_handle)
    /\ (forall networkId, (* no record for the network *)
          net_getId env (chosen_provider env) = Return networkId ->
          Artifact.networks (MediChain env) !! networkId = None ->
          mediChain (react w') = Some simulated_handle)
    /\ (forall networkId networkData, (* placeholder record *)
          net_getId env (chosen_provider env) = Return networkId ->
          Artifact.networks (MediChain env) !! networkId = Some networkData ->
          Artifact.address networkData = sentinel_address ->
          mediChain (react w') = Some simulated_handle)
    /\ (forall networkId networkData e, (* contract not live *)
          net_getId env (chosen_provider env) = Return networkId ->
          Artifact.networks (MediChain env) !! networkId = Some networkData ->
          fst (liveness_probe {| Web3.currentProvider := chosen_provider env |}
                 (Artifact.abi (MediChain env)) (Artifact.address networkData) env w)
          = Throw e ->
          mediChain (react w') = Some simulated_handle).
Proof.
  destruct (getContractInstance_publishes env w) as (w' & Hrun & Hpub & _).
  exists w'. split; [exact Hrun|]. rewrite Hpub.
  split; [eexists; reflexivity|].
  unfold published, resolution.
  repeat split.
  - intros e H. rewrite new_Web3_outcome in H.
    destruct (provider_failure env); [reflexivity|discriminate].
  - intros e H. rewrite H. now destruct (provider_failure env).
  - intros networkId H Hnone. rewrite H, Hnone. now destruct (provider_failure env).
  - intros networkId nd H Hsome Haddr.
    rewrite H, Hsome, Haddr, String.eqb_refl. now destruct (provider_failure env).
  - intros networkId nd e H Hsome Hprobe.
    rewrite liveness_probe_outcome in Hprobe. cbn in Hprobe.
    rewrite H, Hsome.
    destruct (provider_failure env); [reflexivity|].
    destruct (String.eqb _ sentinel_address); [reflexivity|].
    destruct (Contract_rejects env _ _); [reflexivity|].
    destruct (existsb _ _); [|reflexivity].
    now rewrite Hprobe.
Qed.

(** Nothing answers in [offline]: the simulated contract is published and
    one error is logged. *)
Example offline_is_simulated :
  exists w',
    getContractInstance offline fresh_page = (Return tt, w')
    /\ mediChain (react w') = Some simulated_handle
    /\ requests w' = [NetGetId (Web3.Endpoint "http://localhost:7545")]
    /\ length (console w') = 1%nat.
Proof. exists (snd (getContractInstance offline fresh_page)). repeat split. Qed.

(** ** Timers and the simulated writes *)

Section FiringOrder.

Lemma enqueue_Permutation (t : Timer) (l : list Timer) : enqueue t l ≡ₚ t :: l.
Proof.
  induction l as [|u r IH]; cbn; [reflexivity|].
  destruct (due t <=? due u); [reflexivity|].
  rewrite IH. apply Permutation_swap.
Qed.

Lemma firing_order_Permutation (ts : list Timer) : firing_order ts ≡ₚ ts.
Proof.
  induction ts as [|t r IH]; cbn; [reflexivity|].
  now rewrite enqueue_Permutation, IH.
Qed.

Lemma enqueue_sorted (t : Timer) (l : list Timer) :
  StronglySorted no_later l -> StronglySorted no_later (enqueue t l).
Proof.
  induction l as [|u r IH]; intros Hs; cbn.
  - repeat constructor.
  - apply StronglySorted_inv in Hs as [Hr Hu].
    destruct (N.leb_spec (due t) (due u)) as [Hle|Hgt].
    + constructor; [constructor; assumption|].
      constructor; [exact Hle|].
      eapply Forall_impl; [exact Hu|].
      intros v Hv. unfold no_later in *. lia.
    + constructor; [apply IH, Hr|].
      rewrite enqueue_Permutation. constructor; [|exact Hu].
      unfold no_later. lia.
Qed.

Lemma firing_order_sorted (ts : list Timer) : StronglySorted no_later (firing_order ts).
Proof.
  induction ts as [|t r IH]; cbn; [constructor|].
  now apply enqueue_sorted.
Qed.

(** In firing order, a timer due strictly earlier stands strictly earlier. *)
Lemma sorted_earlier (l : list Timer) (i j : nat) (a b : Timer) :
  StronglySorted no_later l ->
  l !! i = Some a -> l !! j = Some b -> due a < due b -> (i < j)%nat.
Proof.
  intros Hs. revert i j.
  induction Hs as [|x l Hs IH Hx]; intros i j Hi Hj Hlt; [discriminate|].
  destruct i as [|i], j as [|j]; cbn in Hi, Hj.
  - injection Hi as <-. injection Hj as <-. lia.
  - lia.
  - injection Hj as <-.
    rewrite Forall_forall in Hx.
    assert (Hin : a ∈ l) by (eapply list_elem_of_lookup_2; exact Hi).
    specialize (Hx a Hin). unfold no_later in Hx. lia.
  - specialize (IH i j Hi Hj Hlt). lia.
Qed.

End FiringOrder.

Section Scripts.

Import MockContract.

Variable mockEvent : MockEvent.

Lemma perform_after_sleep (u : Use) (wait : N) (l : Loop) :
  now (perform mockEvent u (sleep wait l)) = now l + wait
  /\ timers (perform mockEvent u (sleep wait l))
     = (timers l ++ scheduled mockEvent (now l + wait, u))%list.
Proof.
  unfold scheduled.
  destruct u as [event callback|resolve|reject]; cbn.
  - unfold on. destruct (String.eqb event "transactionHash"); cbn.
    + split; reflexivity.
    + destruct (String.eqb event "error"); cbn; rewrite app_nil_r; split; reflexivity.
  - split; reflexivity.
  - rewrite app_nil_r. split; reflexivity.
Qed.

(** The timers after a script are those before it and, call by call, the
    ones each call leaves behind. *)
Lemma perform_all_timers (script : list (N * Use)) (l : Loop) :
  timers (perform_all mockEvent script l)
  = (timers l ++ (absolute (now l) script ≫= scheduled mockEvent))%list.
Proof.
  revert l. induction script as [|[wait u] rest IH]; intros l; cbn.
  - now rewrite app_nil_r.
  - destruct (perform_after_sleep u wait l) as [Hnow Htimers].
    rewrite IH, Hnow, Htimers, <- app_assoc. reflexivity.
Qed.

Lemma elem_of_timeline (script : list (N * Use)) (t : Timer) :
  t ∈ timeline mockEvent script
  <-> exists call, call ∈ absolute 0 script /\ t ∈ scheduled mockEvent call.
Proof.
  unfold timeline, fired.
  rewrite firing_order_Permutation, perform_all_timers. cbn.
  rewrite list_elem_of_bind. split; intros (call & H1 & H2); exists call; tauto.
Qed.

Lemma scheduled_by_then (t : N) (resolve : Callback) :
  scheduled mockEvent (t, UseThen resolve)
  = [{| created := t; delay := 200; callee := resolve;
        arg := ArgResult (result mockEvent) |}].
Proof. reflexivity. Qed.

Lemma scheduled_by_subscription (t : N) (callback : Callback) :
  scheduled mockEvent (t, UseOn "transactionHash" callback)
  = [{| created := t; delay := 100; callee := callback;
        arg := ArgHash (transactionHash (result mockEvent)) |}].
Proof. reflexivity. Qed.

(** Whatever is called back was asked for by [on('transactionHash', ...)]
    or by [then(...)], at the instant the timer records. *)
Lemma scheduled_inv (call : N * Use) (t : Timer) :
  t ∈ scheduled mockEvent call ->
  (call = (created t, UseOn "transactionHash" (callee t))
   /\ delay t = 100
   /\ arg t = ArgHash (transactionHash (result mockEvent)))
  \/ (call = (created t, UseThen (callee t))
      /\ delay t = 200
      /\ arg t = ArgResult (result mockEvent)).
Proof.
  destruct call as [a [event callback|resolve|reject]]; unfold scheduled; cbn.
  - unfold on. destruct (String.eqb_spec event "transactionHash") as [->|Hne]; cbn.
    + intros ->%list_elem_of_singleton. left. repeat split.
    + destruct (String.eqb event "error"); cbn; intros H; inversion H.
  - intros ->%list_elem_of_singleton. right. repeat split.
  - intros H. inversion H.
Qed.

End Scripts.

(** C8, refuted as stated: a caller that awaits the mock event and
    subscribes 150 ms later is resolved first (at 200 ms) and notified
    afterwards (at 250 ms). *)
Lemma late_subscription_is_notified_after_resolution :
  MockContract.timeline
    (MockContract.createMockPromiEvent {| transactionHash := "0xmock123" |})
    [(0, MockContract.UseThen 1%nat); (150, MockContract.UseOn "transactionHash" 2%nat)]
  = [{| created := 0; delay := 200; callee := 1%nat;
        arg := ArgResult {| transactionHash := "0xmock123" |} |};
     {| created := 150; delay := 100; callee := 2%nat;
        arg := ArgHash "0xmock123" |}].
Proof. reflexivity. Qed.

(** C8, amended.  When the subscription to [transactionHash] is made less
    than 100 ms after the call of [then] (in particular before it or in the
    same turn), the notification is delivered, the resolution is delivered,
    and the notification comes strictly first. *)
Theorem notification_precedes_resolution
    (mockEvent : MockContract.MockEvent) (script : list (N * MockContract.Use))
    (a b : N) (callback resolve : Callback)
    (Hon : (a, MockContract.UseOn "transactionHash" callback) ∈ absolute 0 script)
    (Hthen : (b, MockContract.UseThen resolve) ∈ absolute 0 script)
    (Hsoon : a < b + 100) :
  let notification :=
    {| created := a; delay := 100; callee := callback;
       arg := ArgHash (transactionHash (MockContract.result mockEvent)) |} in
  let resolution :=
    {| created := b; delay := 200; callee := resolve;
       arg := ArgResult (MockContract.result mockEvent) |} in
  (exists i j,
     MockContract.timeline mockEvent script !! i = Some notification
     /\ MockContract.timeline mockEvent script !! j = Some resolution)
  /\ (forall i j,
        MockContract.timeline mockEvent script !! i = Some notification ->
        MockContract.timeline mockEvent script !! j = Some resolution ->
        (i < j)%nat).
Proof.
  intros notification resolution. split.
  - assert (Hn : notification ∈ MockContract.timeline mockEvent script).
    { apply elem_of_timeline. eexists. split; [exact Hon|].
      rewrite scheduled_by_subscription. now apply list_elem_of_singleton. }
    assert (Hr : resolution ∈ MockContract.timeline mockEvent script).
    { apply elem_of_timeline. eexists. split; [exact Hthen|].
      rewrite scheduled_by_then. now apply list_elem_of_singleton. }
    apply list_elem_of_lookup_1 in Hn as [i Hi].
    apply list_elem_of_lookup_1 in Hr as [j Hj].
    now exists i, j.
  - intros i j Hi Hj.
    eapply sorted_earlier; [apply firing_order_sorted|exact Hi|exact Hj|].
    unfold due, notification, resolution. cbn. lia.
Qed.

Lemma notification_precedes_resolution_witness :
  let mockEvent := MockContract.createMockPromiEvent {| transactionHash := "0xmock123" |} in
  let script := [(0, MockContract.UseOn "transactionHash" 2%nat);
                 (0, MockContract.UseThen 1%nat)] in
  (0, MockContract.UseOn "transactionHash" 2%nat) ∈ absolute 0 script
  /\ (0, MockContract.UseThen 1%nat) ∈ absolute 0 script
  /\ 0 < 0 + 100
  /\ MockContract.timeline mockEvent script !! 0%nat
     = Some {| created := 0; delay := 100; callee := 2%nat; arg := ArgHash "0xmock123" |}
  /\ MockContract.timeline mockEvent script !! 1%nat
     = Some {| created := 0; delay := 200; callee := 1%nat;
               arg := ArgResult {| transactionHash := "0xmock123" |} |}
  /\ (0 < 1)%nat.
Proof.
  intros mockEvent script.
  assert (Hon : (0, MockContract.UseOn "transactionHash" 2%nat) ∈ absolute 0 script)
    by apply list_elem_of_here.
  assert (Hthen : (0, MockContract.UseThen 1%nat) ∈ absolute 0 script)
    by apply list_elem_of_further, list_elem_of_here.
  assert (Hsoon : 0 < 0 + 100) by lia.
  repeat split; try assumption.
  exact (proj2 (notification_precedes_resolution mockEvent script 0 0 2%nat 1%nat
                  Hon Hthen Hsoon) 0%nat 1%nat eq_refl eq_refl).
Defined.

(** The usual chain [send().on('transactionHash', cb).then(resolve)]:
    notified at 100 ms, resolved at 200 ms. *)
Example chained_subscription_then :
  MockContract.timeline
    (MockContract.createMockPromiEvent {| transactionHash := "0xmock123" |})
    [(0, MockContract.UseOn "transactionHash" 2%nat);
     (0, MockContract.UseOn "error" 3%nat);
     (0, MockContract.UseThen 1%nat)]
  = [{| created := 0; delay := 100; callee := 2%nat; arg := ArgHash "0xmock123" |};
     {| created := 0; delay := 200; callee := 1%nat;
        arg := ArgResult {| transactionHash := "0xmock123" |} |}].
Proof. reflexivity. Qed.

Ltac each_write_operation H :=
  unfold MockContract.write_operations in H;
  repeat (apply elem_of_cons in H as [->|H]);
  [..|apply elem_of_nil in H; destruct H].

(** C7. Each of the eight simulated writes hands out, from [send()], a mock
    event with its own fixed, non-empty transaction identifier.  Whatever
    the caller then does with that object, every [then(resolve)] is answered
    by calling [resolve] with the confirmation that carries the identifier,
    and nothing is ever called back except [transactionHash] subscribers and
    [then] callbacks: subscribing to [error] and calling [catch] schedule
    nothing. *)
Theorem simulated_writes_confirm (operation : string)
    (Hop : operation ∈ MockContract.write_operations) :
  exists hash,
    (forall web3 : Web3.Instance,
       MockContract.methods (MockContract.createMockContract web3) !! operation
       = Some (MockContract.Sender
                 (MockContract.createMockPromiEvent {| transactionHash := hash |})))
    /\ hash <> ""
    /\ (forall other web3,
          other ∈ MockContract.write_operations ->
          MockContract.methods (MockContract.createMockContract web3) !! other
          = Some (MockContract.Sender
                    (MockContract.createMockPromiEvent {| transactionHash := hash |})) ->
          other = operation)
    /\ (forall script,
          let mockEvent := MockContract.createMockPromiEvent {| transactionHash := hash |} in
          (forall t resolve,
             (t, MockContract.UseThen resolve) ∈ absolute 0 script ->
             {| created := t; delay := 200; callee := resolve;
                arg := ArgResult {| transactionHash := hash |} |}
             ∈ MockContract.timeline mockEvent script)
          /\ (forall timer,
                timer ∈ MockContract.timeline mockEvent script ->
                ((created timer, MockContract.UseOn "transactionHash" (callee timer))
                   ∈ absolute 0 script
                 /\ arg timer = ArgHash hash)
                \/ ((created timer, MockContract.UseThen (callee timer)) ∈ absolute 0 script
                    /\ arg timer = ArgResult {| transactionHash := hash |}))
          /\ (forall callback l, MockContract.on mockEvent "error" callback l = (mockEvent, l))
          /\ (forall reject l, snd (MockContract.catch mockEvent reject l) = l)).
Proof.
  assert (Hscripts : forall hash script,
    let mockEvent := MockContract.createMockPromiEvent {| transactionHash := hash |} in
    (forall t resolve,
       (t, MockContract.UseThen resolve) ∈ absolute 0 script ->
       {| created := t; delay := 200; callee := resolve;
          arg := ArgResult {| transactionHash := hash |} |}
       ∈ MockContract.timeline mockEvent script)
    /\ (forall timer,
          timer ∈ MockContract.timeline mockEvent script ->
          ((created timer, MockContract.UseOn "transactionHash" (callee timer))
             ∈ absolute 0 script
           /\ arg timer = ArgHash hash)
          \/ ((created timer, MockContract.UseThen (callee timer)) ∈ absolute 0 script
              /\ arg timer = ArgResult {| transactionHash := hash |}))
    /\ (forall callback l, MockContract.on mockEvent "error" callback l = (mockEvent, l))
    /\ (forall reject l, snd (MockContract.catch mockEvent reject l) = l)).
  { intros hash script mockEvent. repeat split.
    - intros t resolve Hin. apply elem_of_timeline.
      eexists. split; [exact Hin|].
      rewrite scheduled_by_then. now apply list_elem_of_singleton.
    - intros timer (call & Hcall & Hsched)%elem_of_timeline.
      apply scheduled_inv in Hsched as [(-> & _ & Harg)|(-> & _ & Harg)];
        [left|right]; split; assumption. }
  each_write_operation Hop;
    eexists; (split; [intros web3; vm_compute; reflexivity|]);
    (split; [discriminate|]);
    (split; [|apply Hscripts]);
    intros other web3 Hother; each_write_operation Hother;
    vm_compute; intros H; first [reflexivity | discriminate H].
Qed.

Lemma simulated_writes_confirm_witness :
  exists hash,
    MockContract.methods (MockContract.createMockContract local_web3) !! "register"
    = Some (MockContract.Sender
              (MockContract.createMockPromiEvent {| transactionHash := hash |}))
    /\ hash <> "".
Proof.
  destruct (simulated_writes_confirm "register") as (hash & Hsend & Hne & _).
  - apply list_elem_of_here.
  - exists hash. split; [apply Hsend|exact Hne].
Defined.

(** The identifiers of the eight writes, as the source lists them. *)
Example write_identifiers :
  map (fun operation =>
         MockContract.methods (MockContract.createMockContract local_web3) !! operation)
      MockContract.write_operations
  = map (fun hash => Some (MockContract.sends hash))
      ["0xmock123"; "0xmock456"; "0xmock789"; "0xmockABC";
       "0xmockDEF"; "0xmockGHI"; "0xmockJKL"; "0xmockMNO"].
Proof. vm_compute. reflexivity. Qed.

(** ** Start-up, one stretch at a time *)

Ltac unfold_stretch :=
  unfold ledger_resume, ledger_stretch, store_resume, store_stretch; unfold_async.

Ltac settle H := cbn in H; injection H as <- <-; cbn; repeat split; eauto; try discriminate.

(** A stretch of [getContractInstance] leaves [ipfs] alone; it writes
    [mediChain] only when it is the last one, and then it ends normally
    with a handle in place. *)
Lemma ledger_resume_effect (env : Env) (w w' : World) (pc pc' : LedgerPc) :
  ledger_resume pc env w = (pc', w') ->
  ipfs (react w') = ipfs (react w)
  /\ (ledger_settled pc' = false -> mediChain (react w') = mediChain (react w))
  /\ (ledger_settled pc = false -> ledger_settled pc' = true ->
      pc' = LedgerDone (Return tt) /\ is_Some (mediChain (react w'))).
Proof.
  destruct pc as [|web3|web3 c|done]; unfold_stretch; intros H.
  - destruct (chosen_provider env) as [p|url]; cbn in H.
    + destruct (Web3_rejects env p); settle H.
    + settle H.
  - destruct (net_getId env _) as [networkId|e]; cbn in H; [|settle H].
    destruct (Artifact.networks (MediChain env) !! networkId) as [nd|]; cbn in H; [|settle H].
    destruct (negb _); cbn in H; [|settle H].
    destruct (Contract_rejects env _ _); cbn in H; [settle H|].
    destruct (existsb _ _); settle H.
  - destruct (name_call env c); settle H.
  - settle H.
Qed.

(** A stretch of [initializeIPFS] leaves [mediChain] alone, writes [ipfs]
    only when it is the last one, and never clears it. *)
Lemma store_resume_effect (env : Env) (w w' : World) (pc pc' : StorePc) :
  store_resume pc env w = (pc', w') ->
  mediChain (react w') = mediChain (react w)
  /\ (store_settled pc' = false -> ipfs (react w') = ipfs (react w))
  /\ (is_Some (ipfs (react w)) -> is_Some (ipfs (react w'))).
Proof.
  destruct pc as [|client|[h|e]|done]; unfold_stretch; intros H.
  - settle H.
  - destruct (ipfs_version env client); settle H.
  - settle H.
  - settle H.
  - settle H.
Qed.

(** Run to the end, the stretches of [getContractInstance] do what the
    function does in one go. *)
Lemma ledger_run_getContractInstance (env : Env) (w : World) :
  ledger_run 3 LedgerStart env w
  = (LedgerDone (fst (getContractInstance env w)), snd (getContractInstance env w)).
Proof.
  unfold ledger_run. unfold_stretch.
  destruct (chosen_provider env) as [p|url]; cbn.
  - destruct (Web3_rejects env p); cbn; [reflexivity|].
    destruct (net_getId env _) as [networkId|e]; cbn; [|reflexivity].
    destruct (Artifact.networks (MediChain env) !! networkId) as [nd|]; cbn; [|reflexivity].
    destruct (negb _); cbn; [|reflexivity].
    destruct (Contract_rejects env _ _); cbn; [reflexivity|].
    destruct (existsb _ _); cbn; [|reflexivity].
    destruct (name_call env _); reflexivity.
  - destruct (net_getId env _) as [networkId|e]; cbn; [|reflexivity].
    destruct (Artifact.networks (MediChain env) !! networkId) as [nd|]; cbn; [|reflexivity].
    destruct (negb _); cbn; [|reflexivity].
    destruct (Contract_rejects env _ _); cbn; [reflexivity|].
    destruct (existsb _ _); cbn; [|reflexivity].
    destruct (name_call env _); reflexivity.
Qed.

(** The same for [initializeIPFS]. *)
Lemma store_run_initializeIPFS (env : Env) (w : World) :
  store_run 3 StoreStart env w
  = (StoreDone (fst (initializeIPFS env w)), snd (initializeIPFS env w)).
Proof.
  unfold store_run. unfold_stretch. cbn.
  destruct (ipfs_version env _); reflexivity.
Qed.

(** What holds of every page the application can be in. *)
Lemma reachable_invariant (env : Env) (p : Page) :
  reachable env p ->
  (ledger_settled (ledger p) = false -> mediChain (react (world p)) = None)
  /\ (ledger_settled (ledger p) = true ->
      ledger p = LedgerDone (Return tt) /\ is_Some (mediChain (react (world p))))
  /\ (store_settled (store p) = false -> ipfs (react (world p)) = Some mockIpfs)
  /\ is_Some (ipfs (react (world p))).
Proof.
  unfold reachable. revert p.
  apply rtc_ind_r; [|intros p q Hpq Hstep IH].
  - cbn. repeat split; try discriminate; eauto.
  - destruct IH as (Inull & Idone & Imock & Isome).
    destruct Hstep as [p pc w Hrun Hres|p pc w Hrun Hres|p a w Hset|p t w Hset|p]; cbn.
    + apply ledger_resume_effect in Hres as (Hipfs & Hkeep & Hend).
      rewrite Hipfs. repeat split; try assumption.
      * intros Hpc. rewrite (Hkeep Hpc). now apply Inull.
      * now apply Hend.
      * now apply Hend.
    + apply store_resume_effect in Hres as (Hmedi & Hkeep & Hsome).
      rewrite Hmedi. repeat split; try assumption.
      * now apply Idone.
      * now apply Idone.
      * intros Hpc. rewrite (Hkeep Hpc). now apply Imock.
      * now apply Hsome.
    + injection Hset as <-. cbn. tauto.
    + injection Hset as <-. cbn. tauto.
    + repeat split; try discriminate; eauto.
Qed.

(** C9. On every page the application can reach: as long as
    [getContractInstance] has not settled, [mediChain] is [null] (no handle,
    not even the simulated one); as long as [initializeIPFS] has not
    settled, [ipfs] is [mockIpfs]; and [ipfs] is never [null]. *)
Theorem handles_before_resolution (env : Env) (p : Page) (Hreach : reachable env p) :
  (ledger_settled (ledger p) = false -> mediChain (react (world p)) = None)
  /\ (store_settled (store p) = false -> ipfs (react (world p)) = Some mockIpfs)
  /\ is_Some (ipfs (react (world p))).
Proof.
  destruct (reachable_invariant env p Hreach) as (Inull & _ & Imock & Isome).
  repeat split; assumption.
Qed.

Lemma both_suspended_reachable : reachable ganache both_suspended.
Proof.
  unfold reachable.
  eapply rtc_l; [apply (step_ledger ganache mounted); reflexivity|].
  eapply rtc_l; [eapply step_store; reflexivity|].
  apply rtc_refl.
Qed.

Lemma handles_before_resolution_witness :
  ledger_settled (ledger both_suspended) = false
  /\ store_settled (store both_suspended) = false
  /\ mediChain (react (world both_suspended)) = None
  /\ ipfs (react (world both_suspended)) = Some mockIpfs.
Proof.
  destruct (handles_before_resolution ganache both_suspended both_suspended_reachable)
    as (Hnull & Hmock & _).
  exact (conj eq_refl (conj eq_refl (conj (Hnull eq_refl) (Hmock eq_refl)))).
Defined.


(** * Further properties of [App.js] *)

(** ** [initializeIPFS] *)

(** X1. [initializeIPFS] never raises and always leaves a usable store in
    the [ipfs] cell: the client of the local node when its version query is
    answered, [mockIpfs] otherwise.  It sends that one query and touches
    nothing else. *)
Theorem initializeIPFS_publishes (env : Env) (w : World) :
  exists w',
    initializeIPFS env w = (Return tt, w')
    /\ ipfs (react w') = Some (resolved_store env)
    /\ mediChain (react w') = mediChain (react w)
    /\ account (react w') = account (react w)
    /\ token (react w') = token (react w)
    /\ requests w' = (requests w ++ [IpfsVersion local_client])%list
    /\ draws w' = draws w.
Proof.
  exists (snd (initializeIPFS env w)).
  unfold resolved_store, local_client. unfold_async. cbn.
  destruct (ipfs_version env _); cbn; repeat split.
Qed.

(** ** What [getContractInstance] sends *)

Ltac requests_shape :=
  repeat split;
  first [ left; rewrite <- ?app_assoc, ?app_nil_r; reflexivity
        | right; left; rewrite <- ?app_assoc; reflexivity
        | right; rewrite <- ?app_assoc; reflexivity
        | right; right; eexists _, _; rewrite <- ?app_assoc;
          repeat split; eassumption ].


Lemma existsb_name_false (abi : Web3.Abi) :
  "name" ∉ abi -> existsb (String.eqb "name") abi = false.
Proof.
  intros Hnot. apply not_true_is_false. intros Hex.
  apply existsb_exists in Hex as (x & Hin & Heq).
  apply String.eqb_eq in Heq. subst x.
  apply Hnot, list_elem_of_In, Hin.
Qed.

(** X3. When the bundled interface declares no [name] function, reading
    [mediChain.methods.name] fails before anything is sent: whatever the
    network and however live the deployed contract, [getContractInstance]
    publishes the simulated contract and sends no call. *)
Theorem interface_without_name_is_simulated (env : Env) (w : World)
    (Hname : "name" ∉ Artifact.abi (MediChain env)) :
  exists w',
    getContractInstance env w = (Return tt, w')
    /\ mediChain (react w') = Some simulated_handle
    /\ (requests w' = requests w
        \/ requests w' = (requests w ++ [NetGetId (chosen_provider env)])%list).
Proof.
  apply existsb_name_false in Hname.
  exists (snd (getContractInstance env w)).
  unfold_async. rewrite ?Hname.
  destruct (chosen_provider env) as [p|url] eqn:Hp; cbn -[String.eqb].
  - destruct (Web3_rejects env p); cbn -[String.eqb]; [requests_shape|].
    destruct (net_getId env (Web3.Injected p)) as [networkId|e]; cbn -[String.eqb]; [|requests_shape].
    destruct (Artifact.networks (MediChain env) !! networkId) as [nd|]; cbn -[String.eqb]; [|requests_shape].
    destruct (String.eqb (Artifact.address nd) sentinel_address); cbn -[String.eqb]; [requests_shape|].
    destruct (Contract_rejects env _ _); cbn -[String.eqb]; [requests_shape|].
    rewrite ?Hname; cbn -[String.eqb]; requests_shape.
  - destruct (net_getId env (Web3.Endpoint url)) as [networkId|e]; cbn -[String.eqb]; [|requests_shape].
    destruct (Artifact.networks (MediChain env) !! networkId) as [nd|]; cbn -[String.eqb]; [|requests_shape].
    destruct (String.eqb (Artifact.address nd) sentinel_address); cbn -[String.eqb]; [requests_shape|].
    destruct (Contract_rejects env _ _); cbn -[String.eqb]; [requests_shape|].
    rewrite ?Hname; cbn -[String.eqb]; requests_shape.
Qed.

Lemma interface_without_name_is_simulated_witness :
("name" ∉ Artifact.abi (MediChain nameless))
  /\ net_getId nameless (chosen_provider nameless) = Return 5777
  /\ name_call nameless
       {| Web3.provider := chosen_provider nameless;
          Web3.jsonInterface := Artifact.abi (MediChain nameless);
          Web3.address := "0xREAL" |} = Return "MediChain"
  /\ exists w',
       getContractInstance nameless fresh_page = (Return tt, w')
       /\ mediChain (react w') = Some simulated_handle.
Proof.
  assert (Hname : "name" ∉ Artifact.abi (MediChain nameless)).
  { cbn. intros H. repeat (apply elem_of_cons in H as [H|H]; [discriminate H|]).
    now apply elem_of_nil in H. }
  split; [exact Hname|]. split; [reflexivity|]. split; [reflexivity|].
  destruct (interface_without_name_is_simulated nameless fresh_page Hname)
    as (w' & Hrun & Hsim & _).
  exists w'. split; assumption.
Defined.

(** ** Start-up in any order *)

Ltac decided :=
  try (unfold published, resolution;
       repeat first
         [ match goal with
           | H : ?x = _ |- context [?x] => rewrite H
           end
         | progress unfold provider_failure
         | progress cbn -[String.eqb] ];
       try reflexivity).

(** A stretch of [getContractInstance] keeps the resolver on course. *)
Lemma ledger_resume_on_course (env : Env) (w w' : World) (pc pc' : LedgerPc) :
  ledger_on_course env pc (react w) ->
  ledger_resume pc env w = (pc', w') ->
  ledger_on_course env pc' (react w').
Proof.
  destruct pc as [|web3|web3 c|done]; unfold ledger_on_course at 1.
  - intros Hnull. unfold_stretch.
    destruct (chosen_provider env) as [p|url] eqn:Hp; cbn -[String.eqb].
    + destruct (Web3_rejects env p) eqn:Hrej; intros H; settle H; decided.
    + intros H; settle H; decided.
  - intros (Hnull & Hprov & ->). unfold_stretch. cbn -[String.eqb].
    destruct (net_getId env _) as [networkId|e] eqn:Hid; cbn -[String.eqb];
      [|intros H; settle H; decided].
    destruct (Artifact.networks (MediChain env) !! networkId) as [nd|] eqn:Hnd;
      cbn -[String.eqb]; [|intros H; settle H; decided].
    destruct (String.eqb (Artifact.address nd) sentinel_address) eqn:Haddr;
      cbn -[String.eqb]; [intros H; settle H; decided|].
    destruct (Contract_rejects env _ _) eqn:Hcon; cbn -[String.eqb];
      [intros H; settle H; decided|].
    destruct (existsb _ _) eqn:Hname; cbn -[String.eqb]; intros H; settle H; decided.
  - intros (Hnull & Hres). unfold_stretch.
    destruct (name_call env c) eqn:Hprobe; cbn; intros H; settle H;
      unfold published; now rewrite Hres.
  - intros Hdone. cbn. intros H. injection H as <- <-. exact Hdone.
Qed.

(** A stretch of [initializeIPFS] keeps the resolver on course. *)
Lemma store_resume_on_course (env : Env) (w w' : World) (pc pc' : StorePc) :
  store_on_course env pc (react w) ->
  store_resume pc env w = (pc', w') ->
  store_on_course env pc' (react w').
Proof.
  destruct pc as [|client|c|done]; unfold store_on_course at 1.
  - intros Hmock. unfold_stretch. cbn. intros H. settle H.
  - intros (Hmock & ->). unfold_stretch.
    destruct (ipfs_version env local_client) eqn:Hv; cbn; intros H; settle H;
      unfold resolved_store; now rewrite Hv.
  - intros (Hmock & ->). unfold_stretch. cbn. intros H. settle H.
  - intros Hdone. cbn. intros H. injection H as <- <-. exact Hdone.
Qed.

(** On every page the application can reach, both resolvers are on
    course. *)
Lemma reachable_on_course (env : Env) (p : Page) :
  reachable env p ->
  ledger_on_course env (ledger p) (react (world p))
  /\ store_on_course env (store p) (react (world p)).
Proof.
  unfold reachable. revert p.
  apply rtc_ind_r; [|intros p q Hpq Hstep [IHl IHs]].
  - split; reflexivity.
  - destruct Hstep as [p pc w Hrun Hres|p pc w Hrun Hres|p a w Hset|p t w Hset|p]; cbn.
    + split; [eapply ledger_resume_on_course; eassumption|].
      apply ledger_resume_effect in Hres as (Hipfs & _).
      destruct (store p); cbn in IHs |- *; rewrite Hipfs; exact IHs.
    + split; [|eapply store_resume_on_course; eassumption].
      apply store_resume_effect in Hres as (Hmedi & _).
      destruct (ledger p); cbn in IHl |- *; rewrite Hmedi; exact IHl.
    + injection Hset as <-. cbn.
      split; [destruct (ledger p)|destruct (store p)]; assumption.
    + injection Hset as <-. cbn.
      split; [destruct (ledger p)|destruct (store p)]; assumption.
    + split; reflexivity.
Qed.

(** X4. The two resolvers do not disturb each other: however their
    stretches interleave with one another, with [setAccount] and
    [setToken], and across reloads, once [getContractInstance] has settled
    it has ended normally with the handle that [resolution] decides in
    [mediChain], and once [initializeIPFS] has settled it has ended normally
    with the store that the version query decides in [ipfs]. *)
Theorem settled_handles_are_decided (env : Env) (p : Page) (Hreach : reachable env p) :
  (ledger_settled (ledger p) = true ->
   ledger p = LedgerDone (Return tt)
   /\ mediChain (react (world p)) = Some (published env))
  /\ (store_settled (store p) = true ->
      store p = StoreDone (Return tt)
      /\ ipfs (react (world p)) = Some (resolved_store env)).
Proof.
  destruct (reachable_on_course env p Hreach) as [Hl Hs].
  split; intros Hdone.
  - destruct (ledger p); try discriminate. now destruct Hl as [-> Hl].
  - destruct (store p); try discriminate. now destruct Hs as [-> Hs].
Qed.

Lemma both_settled_reachable : reachable ganache both_settled.
Proof.
  unfold reachable.
  eapply rtc_l; [apply (step_store ganache mounted); reflexivity|].
  eapply rtc_l; [eapply step_ledger; reflexivity|].
  eapply rtc_l; [eapply step_ledger; reflexivity|].
  eapply rtc_l; [eapply step_store; reflexivity|].
  eapply rtc_l; [eapply step_ledger; reflexivity|].
  eapply rtc_l; [eapply step_store; reflexivity|].
  apply rtc_refl.
Qed.

Lemma settled_handles_are_decided_witness :
  ledger_settled (ledger both_settled) = true
  /\ store_settled (store both_settled) = true
  /\ mediChain (react (world both_settled))
     = Some (RealContract {| Web3.provider := Web3.Injected 1%nat;
                             Web3.jsonInterface := ["name"; "register"; "login"];
                             Web3.address := "0xREAL" |})
  /\ ipfs (react (world both_settled)) = Some (RealStore local_client).
Proof.
  destruct (settled_handles_are_decided ganache both_settled both_settled_reachable)
    as [Hl Hs].
  exact (conj eq_refl (conj eq_refl (conj (proj2 (Hl eq_refl)) (proj2 (Hs eq_refl))))).
Defined.

(** Each stretch brings a resolver strictly closer to its end. *)
Lemma ledger_resume_rank (env : Env) (w w' : World) (pc pc' : LedgerPc) :
  ledger_settled pc = false ->
  ledger_resume pc env w = (pc', w') ->
  (ledger_rank pc' < ledger_rank pc)%nat.
Proof.
  destruct pc as [|web3|web3 c|done]; intros Hpc; try discriminate;
    unfold_stretch; intros H.
  - destruct (chosen_provider env) as [p|url]; cbn in H.
    + destruct (Web3_rejects env p); cbn in H; injection H as <- <-; cbn; lia.
    + injection H as <- <-; cbn; lia.
  - destruct (net_getId env _) as [networkId|e]; cbn in H;
      [|injection H as <- <-; cbn; lia].
    destruct (Artifact.networks (MediChain env) !! networkId) as [nd|]; cbn in H;
      [|injection H as <- <-; cbn; lia].
    destruct (negb _); cbn in H; [|injection H as <- <-; cbn; lia].
    destruct (Contract_rejects env _ _); cbn in H; [injection H as <- <-; cbn; lia|].
    destruct (existsb _ _); cbn in H; injection H as <- <-; cbn; lia.
  - destruct (name_call env c); cbn in H; injection H as <- <-; cbn; lia.
Qed.

Lemma store_resume_rank (env : Env) (w w' : World) (pc pc' : StorePc) :
  store_settled pc = false ->
  store_resume pc env w = (pc', w') ->
  (store_rank pc' < store_rank pc)%nat.
Proof.
  destruct pc as [|client|[h|e]|done]; intros Hpc; try discriminate;
    unfold_stretch; intros H.
  - cbn in H. injection H as <- <-; cbn; lia.
  - destruct (ipfs_version env client); cbn in H; injection H as <- <-; cbn; lia.
  - cbn in H. injection H as <- <-; cbn; lia.
  - cbn in H. injection H as <- <-; cbn; lia.
Qed.

Lemma ledger_can_settle (env : Env) (n : nat) (p : Page) :
  (ledger_rank (ledger p) <= n)%nat ->
  exists q,
    bsteps (step env) n p q
    /\ ledger_settled (ledger q) = true
    /\ store q = store p.
Proof.
  revert p. induction n as [|n IH]; intros p Hrank.
  - exists p. split; [apply bsteps_refl|]. split; [|reflexivity].
    destruct (ledger p); cbn in Hrank; try lia. reflexivity.
  - destruct (ledger_settled (ledger p)) eqn:Hset.
    + exists p. split; [apply bsteps_refl|]. split; [exact Hset|reflexivity].
    + destruct (ledger_resume (ledger p) env (world p)) as [pc w] eqn:Hres.
      pose proof (ledger_resume_rank env _ _ _ _ Hset Hres) as Hlt.
      destruct (IH {| world := w; ledger := pc; store := store p |}) as (q & Hq & Hdone & Hst).
      { cbn. lia. }
      exists q. split; [|split; assumption].
      eapply bsteps_l; [|exact Hq]. now apply step_ledger.
Qed.

Lemma store_can_settle (env : Env) (n : nat) (p : Page) :
  (store_rank (store p) <= n)%nat ->
  exists q,
    bsteps (step env) n p q
    /\ store_settled (store q) = true
    /\ ledger q = ledger p.
Proof.
  revert p. induction n as [|n IH]; intros p Hrank.
  - exists p. split; [apply bsteps_refl|]. split; [|reflexivity].
    destruct (store p); cbn in Hrank; try lia. reflexivity.
  - destruct (store_settled (store p)) eqn:Hset.
    + exists p. split; [apply bsteps_refl|]. split; [exact Hset|reflexivity].
    + destruct (store_resume (store p) env (world p)) as [pc w] eqn:Hres.
      pose proof (store_resume_rank env _ _ _ _ Hset Hres) as Hlt.
      destruct (IH {| world := w; ledger := ledger p; store := pc |}) as (q & Hq & Hdone & Hst).
      { cbn. lia. }
      exists q. split; [|split; assumption].
      eapply bsteps_l; [|exact Hq]. now apply step_store.
Qed.

(** X5. Start-up cannot get stuck and has no retry loop: from every page
    the application can reach, at most six further stretches (three of each
    resolver), every awaited call being answered one way or the other, lead
    to a page where both promises are fulfilled, [mediChain] holds the
    decided contract handle and [ipfs] the decided store. *)
Theorem start_up_can_always_finish (env : Env) (p : Page) (Hreach : reachable env p) :
  exists q,
    bsteps (step env) 6 p q
    /\ ledger q = LedgerDone (Return tt)
    /\ store q = StoreDone (Return tt)
    /\ mediChain (react (world q)) = Some (published env)
    /\ ipfs (react (world q)) = Some (resolved_store env).
Proof.
  destruct (ledger_can_settle env 3 p) as (q1 & Hq1 & Hl1 & _).
  { destruct (ledger p); cbn; lia. }
  destruct (store_can_settle env 3 q1) as (q & Hq & Hs & Hsame).
  { destruct (store q1); cbn; lia. }
  assert (Hsteps : bsteps (step env) 6 p q) by exact (bsteps_trans 3 3 _ _ _ Hq1 Hq).
  assert (Hreach' : reachable env q).
  { unfold reachable in *. etrans; [exact Hreach|]. eapply rtc_bsteps_2, Hsteps. }
  destruct (reachable_on_course env q Hreach') as [Hl Hst].
  exists q. split; [exact Hsteps|].
  rewrite Hsame in Hl |- *.
  destruct (ledger q1); try discriminate.
  destruct (store q); try discriminate.
  destruct Hl as [-> Hl]. destruct Hst as [-> Hst].
  repeat split; assumption.
Qed.

Lemma start_up_can_always_finish_witness :
  exists q,
    bsteps (step offline) 6 mounted q
    /\ mediChain (react (world q)) = Some simulated_handle
    /\ ipfs (react (world q)) = Some mockIpfs.
Proof.
  destruct (start_up_can_always_finish offline mounted (rtc_refl _ _))
    as (q & Hsteps & _ & _ & Hm & Hi).
  exists q. split; [exact Hsteps|]. split; [exact Hm|exact Hi].
Defined.

(** ** The operations of the simulated contract *)




(** ** Every call of a mock event is answered once *)

Lemma count_app {A : Type} (f : A -> bool) (l k : list A) :
  count f (l ++ k)%list = (count f l + count f k)%nat.
Proof. unfold count. now rewrite List.filter_app, length_app. Qed.

Lemma count_Permutation {A : Type} (f : A -> bool) (l k : list A) :
  l ≡ₚ k -> count f l = count f k.
Proof.
  unfold count. induction 1 as [|x l k _ IH|x y l|l k m _ IH1 _ IH2]; cbn.
  - reflexivity.
  - destruct (f x); cbn; now rewrite IH.
  - destruct (f x), (f y); reflexivity.
  - now rewrite IH1.
Qed.

Section Counting.

Import MockContract.

Variable mockEvent : MockEvent.
Variable f : Timer -> bool.
Variable g : Use -> bool.
Hypothesis one_each :
  forall t u, count f (scheduled mockEvent (t, u)) = if g u then 1%nat else 0%nat.

Lemma count_perform_all (script : list (N * Use)) (l : Loop) :
  count f (timers (perform_all mockEvent script l))
  = (count f (timers l) + count (fun c => g (snd c)) script)%nat.
Proof.
  revert l. induction script as [|[wait u] rest IH]; intros l; cbn.
  - unfold count. cbn. lia.
  - destruct (perform_after_sleep mockEvent u wait l) as [_ Htimers].
    rewrite IH, Htimers, count_app, one_each.
    unfold count. cbn. destruct (g u); cbn; lia.
Qed.

Lemma count_timeline (script : list (N * Use)) :
  count f (timeline mockEvent script) = count (fun c => g (snd c)) script.
Proof.
  unfold timeline, fired.
  rewrite (count_Permutation f _ _ (firing_order_Permutation _)).
  rewrite count_perform_all. reflexivity.
Qed.

End Counting.

Ltac per_call :=
  let t := fresh "t" in
  let u := fresh "u" in
  intros t u;
  unfold scheduled, count, notifies, resolves, subscribes, awaits, takes_effect;
  destruct u as [?event ?cb|?r|?r]; cbn -[String.eqb]; unfold MockContract.on;
  repeat match goal with
         | |- context [String.eqb ?e ?s] => destruct (String.eqb e s)
         end;
  cbn -[String.eqb]; rewrite ?andb_false_r, ?andb_true_r;
  repeat match goal with
         | |- context [Nat.eqb ?a ?b] => destruct (Nat.eqb a b)
         end;
  reflexivity.

(** X7. Whatever the caller does with a mock event, nothing is lost and
    nothing is doubled: a function is notified of the transaction hash as
    many times as it was subscribed to [transactionHash], it is called with
    the confirmation as many times as it was passed to [then], and nothing
    else is ever called back: subscriptions to any other event ([error],
    [receipt], [confirmation]) and calls of [catch] are never answered. *)
Theorem every_call_is_answered_once
    (mockEvent : MockContract.MockEvent) (script : list (N * MockContract.Use))
    (callback : Callback) :
  count (notifies callback) (MockContract.timeline mockEvent script)
  = count (fun c => subscribes callback (snd c)) script
  /\ count (resolves callback) (MockContract.timeline mockEvent script)
     = count (fun c => awaits callback (snd c)) script
  /\ length (MockContract.timeline mockEvent script)
     = count (fun c => takes_effect (snd c)) script.
Proof.
  split; [|split].
  - apply count_timeline. per_call.
  - apply count_timeline. per_call.
  - transitivity (count (fun _ => true) (MockContract.timeline mockEvent script)).
    + unfold count. generalize (MockContract.timeline mockEvent script).
      induction l as [|x l IH]; cbn; [reflexivity|now rewrite IH].
    + apply count_timeline. per_call.
Qed.

(** The same function subscribed twice, once to [receipt], and awaited
    once: two notifications, one resolution, nothing for [receipt]. *)
Example subscribed_twice :
  map (fun t => (due t, callee t, arg t))
    (MockContract.timeline
       (MockContract.createMockPromiEvent {| transactionHash := "0xmock456" |})
       [(0, MockContract.UseOn "transactionHash" 7%nat);
        (0, MockContract.UseOn "receipt" 7%nat);
        (30, MockContract.UseOn "transactionHash" 7%nat);
        (0, MockContract.UseThen 7%nat)])
  = [(100, 7%nat, ArgHash "0xmock456");
     (130, 7%nat, ArgHash "0xmock456");
     (230, 7%nat, ArgResult {| transactionHash := "0xmock456" |})].
Proof. reflexivity. Qed.

(** ** The shape of the identifiers and of the made-up files *)

Lemma substring_2_48 (r : jsstring) :
  (length (substring 2 48 r) <= 46)%nat
  /\ ((length r <= 48)%nat -> substring 2 48 r = drop 2 r).
Proof.
  unfold substring. split.
  - rewrite length_take. lia.
  - intros Hlen.
    replace (Nat.min 48 (length r)) with (length r) by lia.
    destruct (Nat.le_gt_cases 2 (length r)) as [Hge|Hlt].
    + replace (Nat.min 2 (length r)) with 2%nat by lia.
      replace (Nat.min 2 (length r)) with 2%nat by lia.
      replace (Nat.max 2 (length r)) with (length r) by lia.
      apply take_ge. rewrite length_drop. lia.
    + replace (Nat.min 2 (length r)) with (length r) by lia.
      rewrite Nat.min_id, Nat.max_id, Nat.sub_diag.
      rewrite (drop_ge r 2) by lia. reflexivity.
Qed.

(** X8. The identifier returned by [mockIpfs.add] is [Qm] followed by the
    base-36 rendering of the draw without its first two characters ([0.]):
    it has between 2 and 48 characters, and it is the bare prefix [Qm] when
    the rendering has no more than two characters, as for a draw of 0. *)
Theorem identifier_shape (env : Env) (w : World) (content : MockIpfs.Content) :
  let rendering := Math_random_toString36 env (draws w) in
  exists id w',
    MockIpfs.add content env w = (Return {| MockIpfs.path := id |}, w')
    /\ (2 <= length id <= 48)%nat
    /\ ((length rendering <= 48)%nat -> id = (lit "Qm" ++ drop 2 rendering)%list)
    /\ ((length rendering <= 2)%nat -> id = lit "Qm").
Proof.
  intros rendering.
  destruct (add_unfold content env w) as (w' & Hadd & _).
  destruct (substring_2_48 rendering) as [Hlen Hdrop].
  eexists _, w'. split; [exact Hadd|].
  fold rendering. cbn [app lit list_ascii_of_string map length].
  repeat split.
  - lia.
  - lia.
  - intros H. now rewrite (Hdrop H).
  - intros H. rewrite Hdrop by lia. rewrite drop_ge by lia. reflexivity.
Qed.

Lemma encode_ascii (s : jsstring) :
  Forall (fun c => c < 0x80) s -> TextEncoder_encode s = s.
Proof.
  unfold TextEncoder_encode.
  induction 1 as [|c s Hc _ IH]; [reflexivity|].
  cbn [scalar_values]. unfold is_high_surrogate, is_low_surrogate.
  destruct (N.leb_spec 0xD800 c) as [Hge|_]; [lia|].
  destruct (N.leb_spec 0xDC00 c) as [Hge|_]; [lia|].
  cbn [andb flat_map]. rewrite IH.
  unfold utf8_bytes.
  destruct (N.ltb_spec c 0x80) as [_|Hge]; [reflexivity|lia].
Qed.

(** X9. For an identifier made of ASCII characters, as every identifier
    built from base-36 digits is, [mockIpfs.cat] returns the 28 bytes of
    ['Mock file content for hash: '] followed by the identifier byte for
    byte, so the identifier can be read back by dropping the first 28
    bytes. *)
Theorem cat_embeds_ascii_identifier (env : Env) (w : World) (hash : jsstring)
    (Hascii : Forall (fun c => c < 0x80) hash) :
  exists content w',
    MockIpfs.cat hash env w = (Return content, w')
    /\ content = (lit "Mock file content for hash: " ++ hash)%list
    /\ drop 28 content = hash.
Proof.
  exists (lit "Mock file content for hash: " ++ hash)%list, (snd (MockIpfs.cat hash env w)).
  split; [|split; reflexivity].
  unfold MockIpfs.cat.
  rewrite encode_after_fixed_text, (encode_ascii hash Hascii). reflexivity.
Qed.

Lemma cat_embeds_ascii_identifier_witness :
  Forall (fun c => c < 0x80) (lit "QmMockHash123")
  /\ fst (MockIpfs.cat (lit "QmMockHash123") offline fresh_page)
     = Return (lit "Mock file content for hash: QmMockHash123").
Proof.
  assert (Hascii : Forall (fun c => c < 0x80) (lit "QmMockHash123")).
  { cbn. repeat constructor. }
  split; [exact Hascii|].
  destruct (cat_embeds_ascii_identifier offline fresh_page _ Hascii)
    as (content & w' & Hcat & -> & _).
  rewrite Hcat. reflexivity.
Defined.
